(** * TMC429 register-access driver (src/tmc/ic/TMC429/TMC429.c)

    A shallow embedding of the TMC429 driver in Rocq.

    - Bytes are [Z] values; an assignment to a [uint8_t] is reduction
      modulo 256 ([u8]); an [int32_t] result is wrapped to 32 bits ([s32]).
    - The injected SPI primitive [ReadWriteSPI] is a section variable acting
      on an abstract world, so every driver function is a computation of the
      small state monad [M] over that world.
    - The register addresses and the read flag come from TMC429.h, which is
      not part of the sources: they are section variables, and every result
      below holds whatever their values.
    - The floating-point part of [SetAMax] is modelled with the IEEE 754
      specification of the Standard Library ([SpecFloat]): [double] is
      binary64 (precision 53, emax 1024), [float] is binary32 (precision 24,
      emax 128), rounding to nearest, ties to even. *)

From Stdlib Require Import ZArith List Bool Lia QArith Qround Sorted.
From Stdlib Require Import Floats.SpecFloat.
Import ListNotations.
Open Scope Z_scope.

(** ** C integer conversions *)

(** Conversion of an integer to [uint8_t]. *)
Definition u8 (x : Z) : Z := x mod 256.

(** Conversion of an integer to [int32_t] (two's complement wrap-around). *)
Definition s32 (x : Z) : Z :=
  let y := x mod 2 ^ 32 in if y <? 2 ^ 31 then y else y - 2 ^ 32.

(** ** IEEE 754 arithmetic used by [SetAMax] *)

Module IEEE.

(** [(double) n] for an integer [n]. *)
Definition D_of_Z (n : Z) : spec_float := binary_normalize 53 1024 n 0 false.

(** [x * y] and [x / y] on doubles. *)
Definition Dmul (x y : spec_float) : spec_float := SFmul 53 1024 x y.
Definition Ddiv (x y : spec_float) : spec_float := SFdiv 53 1024 x y.

(** Storing a double into a [float] variable: rounding to binary32. *)
Definition F_of_D (x : spec_float) : spec_float :=
  match x with
  | S754_finite s m e => binary_round 24 128 s m e
  | _ => x
  end.

(** Promoting a [float] to [double] (exact; the result is put in the
    canonical binary64 form). *)
Definition D_of_F (x : spec_float) : spec_float :=
  match x with
  | S754_finite s m e => binary_round 53 1024 s m e
  | _ => x
  end.

(** [(int32_t) x]: truncation toward zero.  The value [m * 2^e] is kept
    exact ([Z.shiftl] by a negative amount is a floor division, which is
    truncation on magnitudes).  A conversion whose result does not fit in
    [int32_t] is undefined in C; the model keeps the exact truncated value
    there.  Infinities and NaN never reach a conversion in this driver. *)
Definition trunc_Z (x : spec_float) : Z :=
  match x with
  | S754_finite s m e => cond_Zopp s (Z.shiftl (Zpos m) e)
  | _ => 0
  end.

(** The literal [0.988]: the double nearest to 988/1000, which is the
    correctly rounded quotient. *)
Definition c0_988 : spec_float := Ddiv (D_of_Z 988) (D_of_Z 1000).

End IEEE.
Import IEEE.

(** ** The AMax / PMUL-PDIV computation of [SetAMax] (lines 322-339) *)

(** [p = AMax / (128.0 * (1<<(ramp_div-pulse_div)))] or
    [p = AMax / (128.0 / (1<<(pulse_div-ramp_div)))], stored in a [float]. *)
Definition amax_p (AMax pulse_div ramp_div : Z) : spec_float :=
  if pulse_div <=? ramp_div
  then F_of_D (Ddiv (D_of_Z AMax)
                    (Dmul (D_of_Z 128) (D_of_Z (Z.shiftl 1 (ramp_div - pulse_div)))))
  else F_of_D (Ddiv (D_of_Z AMax)
                    (Ddiv (D_of_Z 128) (D_of_Z (Z.shiftl 1 (pulse_div - ramp_div))))).

(** [p_reduced = p*0.988], stored in a [float]. *)
Definition amax_p_reduced (AMax pulse_div ramp_div : Z) : spec_float :=
  F_of_D (Dmul (D_of_F (amax_p AMax pulse_div ramp_div)) c0_988).

(** [pmul = (int32_t) (p_reduced * 8.0 * (1<<pdiv)) - 128]. *)
Definition amax_pmul (p_reduced : spec_float) (pdiv : Z) : Z :=
  trunc_Z (Dmul (Dmul (D_of_F p_reduced) (D_of_Z 8)) (D_of_Z (Z.shiftl 1 pdiv))) - 128.

(** One iteration of the [for (pdiv = 0; pdiv <= 13; pdiv++)] loop on the
    pair [(pm, pd)]. *)
Definition amax_step (p_reduced : spec_float) (acc : Z * Z) (pdiv : Z) : Z * Z :=
  let pmul := amax_pmul p_reduced pdiv in
  if (0 <=? pmul) && (pmul <=? 127) then (pmul + 128, pdiv) else acc.

(** The values taken by [pdiv]: 0, 1, ..., 13. *)
Definition pdiv_range : list Z := map Z.of_nat (seq 0 14).

(** The loop, started from the sentinel [pm = -1], [pd = -1]. *)
Definition amax_search (p_reduced : spec_float) : Z * Z :=
  fold_left (amax_step p_reduced) pdiv_range (-1, -1).

(** ** The driver *)

Section Driver.

(** The state of everything outside the driver (SPI bus and device). *)
Variable World : Type.

(** A driver computation: state passing over the world. *)
Definition M (A : Type) : Type := World -> A * World.

Definition ret {A} (a : A) : M A := fun w => (a, w).
Definition bind {A B} (c : M A) (k : A -> M B) : M B :=
  fun w => let '(a, w') := c w in k a w'.

Local Notation "x <- c1 ;; c2" := (bind c1 (fun x => c2))
  (at level 61, c1 at next level, right associativity).

(** [uint8_t ReadWriteSPI(device, byte, last)]: the injected transport. *)
Variable ReadWriteSPI : Z -> Z -> bool -> M Z.

(** Constants and address macros of TMC429.h. *)
Variable SPI_DEV_TMC429 : Z.
Variable TMC429_READ : Z.
Variable TMC429_IDX_REFCONF_RM : Z -> Z.
Variable TMC429_IDX_PULSEDIV_RAMPDIV : Z -> Z.
Variable TMC429_IDX_PMUL_PDIV : Z -> Z.
Variable TMC429_IDX_AMAX : Z -> Z.

(** The indeterminate contents of [Write[1..3]] in the read functions,
    which only assign [Write[0]] before the exchange. *)
Variables Uninit1 Uninit2 Uninit3 : Z.

(** [ReadWrite429(Read, Write)]: a buffer is a list of 4 bytes. *)
Definition ReadWrite429 (Write : list Z) : M (list Z) :=
  r0 <- ReadWriteSPI SPI_DEV_TMC429 (nth 0 Write 0) false ;;
  r1 <- ReadWriteSPI SPI_DEV_TMC429 (nth 1 Write 0) false ;;
  r2 <- ReadWriteSPI SPI_DEV_TMC429 (nth 2 Write 0) false ;;
  r3 <- ReadWriteSPI SPI_DEV_TMC429 (nth 3 Write 0) true ;;
  ret [r0; r1; r2; r3].

Definition Write429Bytes (Address : Z) (Bytes : list Z) : M unit :=
  _ <- ReadWrite429 [Address; nth 0 Bytes 0; nth 1 Bytes 0; nth 2 Bytes 0] ;;
  ret tt.

Definition Write429Datagram (Address HighByte MidByte LowByte : Z) : M unit :=
  _ <- ReadWrite429 [Address; HighByte; MidByte; LowByte] ;;
  ret tt.

Definition Write429Zero (Address : Z) : M unit :=
  _ <- ReadWrite429 [Address; 0; 0; 0] ;;
  ret tt.

Definition Write429Short (Address Value : Z) : M unit :=
  _ <- ReadWrite429 [Address; 0; u8 (Z.shiftr Value 8); Z.land Value 255] ;;
  ret tt.

Definition Write429Int (Address Value : Z) : M unit :=
  _ <- ReadWrite429 [Address; u8 (Z.shiftr Value 16); u8 (Z.shiftr Value 8);
                     Z.land Value 255] ;;
  ret tt.

(** Modelled from the spec: [Write429U16], used by [SetAMax] and declared
    in the missing TMC429.h, is the 16-bit write accessor of section 4.2:
    an unused high payload byte zero-filled, then the value MSB first. *)
Definition Write429U16 (Address Value : Z) : M unit :=
  _ <- ReadWrite429 [Address; 0; u8 (Z.shiftr Value 8); Z.land Value 255] ;;
  ret tt.

Definition Read429Status : M Z := ReadWriteSPI SPI_DEV_TMC429 1 true.

(** Returns the status byte and the three bytes stored into [Bytes]. *)
Definition Read429Bytes (Address : Z) : M (Z * list Z) :=
  Read <- ReadWrite429 [u8 (Z.lor Address TMC429_READ); Uninit1; Uninit2; Uninit3] ;;
  ret (nth 0 Read 0, [nth 1 Read 0; nth 2 Read 0; nth 3 Read 0]).

(** [Read[Index+1]]: [None] is an access outside the 4-byte buffer. *)
Definition Read429SingleByte (Address Index : Z) : M (option Z) :=
  Read <- ReadWrite429 [u8 (Z.lor Address TMC429_READ); Uninit1; Uninit2; Uninit3] ;;
  ret (if Index + 1 <? 0 then None else nth_error Read (Z.to_nat (Index + 1))).

Definition Read429Int12 (Address : Z) : M Z :=
  Read <- ReadWrite429 [u8 (Z.lor Address TMC429_READ); Uninit1; Uninit2; Uninit3] ;;
  let Result := Z.lor (Z.shiftl (nth 2 Read 0) 8) (nth 3 Read 0) in
  ret (if Z.land Result 2048 =? 0 then Result else s32 (Z.lor Result 4294963200)).

Definition Read429Int24 (Address : Z) : M Z :=
  Read <- ReadWrite429 [u8 (Z.lor Address TMC429_READ); Uninit1; Uninit2; Uninit3] ;;
  let Result := Z.lor (Z.lor (Z.shiftl (nth 1 Read 0) 16) (Z.shiftl (nth 2 Read 0) 8))
                      (nth 3 Read 0) in
  ret (if Z.land Result 8388608 =? 0 then Result else s32 (Z.lor Result 4278190080)).

Definition Set429RampMode (Axis RampMode : Z) : M unit :=
  Read <- ReadWrite429 [u8 (Z.lor (TMC429_IDX_REFCONF_RM Axis) TMC429_READ);
                        Uninit1; Uninit2; Uninit3] ;;
  _ <- ReadWrite429 [u8 (TMC429_IDX_REFCONF_RM Axis); nth 1 Read 0; nth 2 Read 0;
                     RampMode] ;;
  ret tt.

Definition Set429SwitchMode (Axis SwitchMode : Z) : M unit :=
  Read <- ReadWrite429 [u8 (Z.lor (TMC429_IDX_REFCONF_RM Axis) TMC429_READ);
                        Uninit1; Uninit2; Uninit3] ;;
  _ <- ReadWrite429 [u8 (TMC429_IDX_REFCONF_RM Axis); nth 1 Read 0; SwitchMode;
                     nth 3 Read 0] ;;
  ret tt.

(** [uint8_t SetAMax(uint8_t Motor, uint32_t AMax)]. *)
Definition SetAMax (Motor AMax : Z) : M Z :=
  let AMax := Z.land AMax 2047 in
  Data <- Read429Bytes (u8 (TMC429_IDX_PULSEDIV_RAMPDIV Motor)) ;;
  let PulseRampDiv := nth 1 (snd Data) 0 in
  let pulse_div := Z.shiftr PulseRampDiv 4 in
  let ramp_div := Z.land PulseRampDiv 15 in
  let '(pm, pd) := amax_search (amax_p_reduced AMax pulse_div ramp_div) in
  _ <- Write429Bytes (u8 (TMC429_IDX_PMUL_PDIV Motor)) [0; u8 pm; u8 pd] ;;
  _ <- Write429U16 (u8 (TMC429_IDX_AMAX Motor)) AMax ;;
  ret 0.

(** Modelled from the spec: [Write429U24], used by [Init429] and declared
    in the missing TMC429.h, is the 24-bit write accessor of section 4.2:
    the value's three low bytes, MSB first. *)
Definition Write429U24 (Address Value : Z) : M unit :=
  _ <- ReadWrite429 [Address; u8 (Z.shiftr Value 16); u8 (Z.shiftr Value 8);
                     Z.land Value 255] ;;
  ret tt.

(** Constants and address macros of TMC429.h used by [HardStop] and
    [Init429]. *)
Variable TMC429_RM_VELOCITY : Z.
Variables TMC429_IDX_VTARGET TMC429_IDX_VACTUAL : Z -> Z.
Variable TMC429_IDX_XLATCHED : Z.
Variable TMC429_MOTOR : Z -> Z.
Variables TMC429_IDX_IF_CONFIG_429 TMC429_IDX_SMGP : Z.
Variables TMC429_IFCONF_EN_SD TMC429_IFCONF_EN_REFR TMC429_IFCONF_SDO_INT : Z.
Variable TMC429_NO_REF : Z.
Variables TMC429_IDX_VMIN TMC429_IDX_VMAX : Z -> Z.

(** [void HardStop(uint32_t Motor)]: the [uint8_t] parameters of the
    callees take the low byte of their arguments. *)
Definition HardStop (Motor : Z) : M unit :=
  _ <- Set429RampMode (u8 Motor) (u8 TMC429_RM_VELOCITY) ;;
  _ <- Write429Zero (u8 (TMC429_IDX_VTARGET Motor)) ;;
  Write429Zero (u8 (TMC429_IDX_VACTUAL Motor)).

(** A [for] loop running [body] on the values of [l] in order. *)
Fixpoint for_each (l : list Z) (body : Z -> M unit) : M unit :=
  match l with
  | [] => ret tt
  | x :: l' => _ <- body x ;; for_each l' body
  end.

(** The values [0, 1, ..., n - 1] of a loop counter. *)
Definition counter (n : Z) : list Z := map Z.of_nat (seq 0 (Z.to_nat n)).

(** [void Init429(void)].  The inner loop runs [addr] over
    [0..TMC429_IDX_XLATCHED], [TMC429_IDX_XLATCHED + 1] iterations (the
    header's register index is below [0xFFFFFFFF], so the [uint32_t]
    counter does not wrap). *)
Definition Init429 : M unit :=
  _ <- for_each (counter 3) (fun motor =>
         for_each (counter (TMC429_IDX_XLATCHED + 1)) (fun addr =>
           Write429Zero (u8 (Z.lor addr (TMC429_MOTOR motor))))) ;;
  _ <- Write429U24 (u8 TMC429_IDX_IF_CONFIG_429)
         (Z.lor (Z.lor TMC429_IFCONF_EN_SD TMC429_IFCONF_EN_REFR) TMC429_IFCONF_SDO_INT) ;;
  _ <- Write429Datagram (u8 TMC429_IDX_SMGP) 0 0 2 ;;
  for_each (counter 3) (fun motor =>
    _ <- Write429Datagram (u8 (TMC429_IDX_PULSEDIV_RAMPDIV motor)) 0 55 6 ;;
    _ <- Write429Datagram (u8 (TMC429_IDX_REFCONF_RM motor)) 0 (u8 TMC429_NO_REF) 0 ;;
    _ <- Write429U16 (u8 (TMC429_IDX_VMIN motor)) 1 ;;
    _ <- Write429U24 (u8 (TMC429_IDX_VMAX motor)) 1000 ;;
    _ <- SetAMax motor 1000 ;;
    ret tt).

End Driver.

(** ** Observing the transport *)

(** One call of the transport: device, byte sent, "last byte" flag. *)
Definition Event : Type := (Z * Z * bool)%type.

(** A transport wrapped so that the world also records every call. *)
Definition logged {S : Type} (xfer : Z -> Z -> bool -> S -> Z * S)
  (dev b : Z) (last : bool) (w : S * list Event) : Z * (S * list Event) :=
  let '(s, log) := w in
  let '(r, s') := xfer dev b last s in
  (r, (s', log ++ [(dev, b, last)])).

(** The calls that exchange one 4-byte telegram [W] with device [dev]. *)
Definition telegram_log (dev : Z) (W : list Z) : list Event :=
  [(dev, nth 0 W 0, false); (dev, nth 1 W 0, false);
   (dev, nth 2 W 0, false); (dev, nth 3 W 0, true)].

(** The bytes sent, in order. *)
Definition sent_bytes (log : list Event) : list Z :=
  map (fun '(_, b, _) => b) log.

(** The first byte of each 4-byte telegram of a log. *)
Fixpoint telegram_heads (log : list Event) : list Z :=
  match log with
  | (_, b, _) :: _ :: _ :: _ :: rest => b :: telegram_heads rest
  | _ => []
  end.

(** A loopback transport: it answers every byte with the byte sent. *)
Definition loopback (dev b : Z) (last : bool) (u : unit) : Z * unit := (b, u).

(** A transport whose device answers each telegram with a fixed 4-byte
    response [R]: the world counts the bytes of the open telegram. *)
Definition fixed_response (R : list Z) (dev b : Z) (last : bool) (i : nat)
  : Z * nat :=
  (nth i R 0, if last then O else S i).

(** ** The search as the specification states it *)

(** The rational value of a floating-point number (0 for infinities and
    NaN, which the search never meets). *)
Definition Q_of_SF (x : spec_float) : Q :=
  match x with
  | S754_finite s m e =>
      if 0 <=? e then inject_Z (cond_Zopp s (Zpos m * 2 ^ e))
      else cond_Zopp s (Zpos m) # Z.to_pos (2 ^ (- e))
  | _ => 0%Q
  end.

(** [pmul = floor(p_reduced * 8 * 2^pdiv) - 128]. *)
Definition pmul_spec (p_reduced : Q) (pdiv : Z) : Z :=
  Qfloor (p_reduced * 8 * inject_Z (2 ^ pdiv)) - 128.

Definition pmul_valid (pmul : Z) : bool := (0 <=? pmul) && (pmul <=? 127).

(** The [pdiv] in 0..13 whose [pmul] lies in 0..127. *)
Definition valid_pdivs (p_reduced : Q) : list Z :=
  filter (fun pdiv => pmul_valid (pmul_spec p_reduced pdiv)) pdiv_range.

(** The pair for the largest valid [pdiv], or the sentinel [(-1, -1)]. *)
Definition amax_search_spec (p_reduced : Q) : Z * Z :=
  match valid_pdivs p_reduced with
  | [] => (-1, -1)
  | pd0 :: rest =>
      let pd := fold_left Z.max rest pd0 in (pmul_spec p_reduced pd + 128, pd)
  end.

(** A [float] that is [+0] or a positive binary32 number, in the canonical
    range of binary32 mantissas and exponents. *)
Definition nonneg_binary32 (x : spec_float) : bool :=
  match x with
  | S754_zero false => true
  | S754_finite false m e =>
      (Zdigits2 (Zpos m) <=? 24) && (-149 <=? e) && (e <=? 104)
  | _ => false
  end.

(** The 12-bit sign extension of the low 12 bits of [v]. *)
Definition sext12 (v : Z) : Z :=
  let x := Z.land v 4095 in if x <? 2048 then x else x - 4096.

(** The [n] consecutive integers from [lo]. *)
Definition Zrange (lo : Z) (n : nat) : list Z := map (fun k => lo + Z.of_nat k) (seq 0 n).

(** [Read429Int12] on a response whose payload bytes are [b1 b2 b3]. *)
Definition Read429Int12_on (b1 b2 b3 : Z) : Z :=
  fst (Read429Int12 nat (fixed_response [0; b1; b2; b3]) 0 0 0 0 0 0 O).

(** What [Read429Int12] computes from the two low payload bytes: the 16-bit
    value when its bit 11 is clear, else the 12-bit sign extension. *)
Definition int12_decoded (b2 b3 : Z) : Z :=
  let r := b2 * 256 + b3 in if r mod 4096 <? 2048 then r else r mod 4096 - 4096.

(** ** Logs of composed driver functions *)

(** A driver computation over a logging world whose run appends to the log
    and otherwise ignores it. *)
Definition log_local {S A : Type} (c : S * list Event -> A * (S * list Event)) : Prop :=
  forall s log, c (s, log) = let '(a, (s', l)) := c (s, []) in (a, (s', log ++ l)).

Section Init_sequence.

Variable TMC429_READ : Z.
Variables TMC429_IDX_REFCONF_RM TMC429_IDX_PULSEDIV_RAMPDIV : Z -> Z.
Variables TMC429_IDX_PMUL_PDIV TMC429_IDX_AMAX : Z -> Z.
Variables Uninit1 Uninit2 Uninit3 : Z.
Variable TMC429_IDX_XLATCHED : Z.
Variable TMC429_MOTOR : Z -> Z.
Variables TMC429_IDX_IF_CONFIG_429 TMC429_IDX_SMGP : Z.
Variables TMC429_IFCONF_EN_SD TMC429_IFCONF_EN_REFR TMC429_IFCONF_SDO_INT : Z.
Variable TMC429_NO_REF : Z.
Variables TMC429_IDX_VMIN TMC429_IDX_VMAX : Z -> Z.

(** The telegrams of one pass of the second loop of [Init429] for [motor]:
    the divider datagram [0x00 0x37 0x06], the reference datagram, [VMIN = 1]
    (16-bit write), [VMAX = 1000] (24-bit write), then the read, PMUL/PDIV
    and AMAX telegrams of [SetAMax(motor, 1000)], whose PMUL/PDIV payload
    bytes are [pmul_pdiv]. *)
Definition Init429_motor_telegrams (motor : Z) (pmul_pdiv : Z * Z) : list (list Z) :=
  [[u8 (TMC429_IDX_PULSEDIV_RAMPDIV motor); 0; 55; 6];
   [u8 (TMC429_IDX_REFCONF_RM motor); 0; u8 TMC429_NO_REF; 0];
   [u8 (TMC429_IDX_VMIN motor); 0; 0; 1];
   [u8 (TMC429_IDX_VMAX motor); 0; 3; 232];
   [u8 (Z.lor (u8 (TMC429_IDX_PULSEDIV_RAMPDIV motor)) TMC429_READ); Uninit1; Uninit2;
    Uninit3];
   [u8 (TMC429_IDX_PMUL_PDIV motor); 0; fst pmul_pdiv; snd pmul_pdiv];
   [u8 (TMC429_IDX_AMAX motor); 0; 3; 232]].

(** The telegrams of [Init429], in order: the zeroing loop, the interface
    configuration (24-bit write), the SMGP datagram [0x00 0x00 0x02], then
    the second loop, [pmul_pdiv motor] being the PMUL/PDIV payload bytes
    that [SetAMax] computes for [motor]. *)
Definition Init429_telegrams (pmul_pdiv : Z -> Z * Z) : list (list Z) :=
  let ifconf := Z.lor (Z.lor TMC429_IFCONF_EN_SD TMC429_IFCONF_EN_REFR)
                      TMC429_IFCONF_SDO_INT in
  flat_map (fun motor =>
              map (fun addr => [u8 (Z.lor addr (TMC429_MOTOR motor)); 0; 0; 0])
                  (counter (TMC429_IDX_XLATCHED + 1)))
           (counter 3)
  ++ [[u8 TMC429_IDX_IF_CONFIG_429; u8 (Z.shiftr ifconf 16); u8 (Z.shiftr ifconf 8);
       Z.land ifconf 255];
      [u8 TMC429_IDX_SMGP; 0; 0; 2]]
  ++ flat_map (fun motor => Init429_motor_telegrams motor (pmul_pdiv motor)) (counter 3).

End Init_sequence.

(** * Properties *)

(** ** Telegrams seen through a logging transport *)

Section Traces.

Variable S : Type.
Variable xfer : Z -> Z -> bool -> S -> Z * S.
Variable dev : Z.

Lemma ReadWrite429_logged (W : list Z) (s : S) (log : list Event) :
  ReadWrite429 _ (logged xfer) dev W (s, log)
  = let '(R, s') := ReadWrite429 _ xfer dev W s in
    (R, (s', log ++ telegram_log dev W)).
Proof.
  unfold ReadWrite429, bind, ret, logged, telegram_log.
  destruct (xfer dev (nth 0 W 0) false s) as [r0 s1].
  destruct (xfer dev (nth 1 W 0) false s1) as [r1 s2].
  destruct (xfer dev (nth 2 W 0) false s2) as [r2 s3].
  destruct (xfer dev (nth 3 W 0) true s3) as [r3 s4].
  rewrite <- !app_assoc. reflexivity.
Qed.

(** C5: four transfers, in buffer order, only the fourth one closing the
    transaction; the bytes received are returned in the same order, and a
    loopback transport gives back the buffer sent. *)
Theorem ReadWrite429_transfers (w0 w1 w2 w3 : Z) (s : S) (log : list Event) :
  (let '(r0, s1) := xfer dev w0 false s in
   let '(r1, s2) := xfer dev w1 false s1 in
   let '(r2, s3) := xfer dev w2 false s2 in
   let '(r3, s4) := xfer dev w3 true s3 in
   ReadWrite429 _ (logged xfer) dev [w0; w1; w2; w3] (s, log)
   = ([r0; r1; r2; r3],
      (s4, log ++ [(dev, w0, false); (dev, w1, false); (dev, w2, false);
                   (dev, w3, true)])))
  /\ fst (ReadWrite429 _ loopback dev [w0; w1; w2; w3] tt) = [w0; w1; w2; w3].
Proof.
  split; [| reflexivity].
  rewrite ReadWrite429_logged.
  unfold ReadWrite429, bind, ret. simpl nth.
  destruct (xfer dev w0 false s) as [r0 s1].
  destruct (xfer dev w1 false s1) as [r1 s2].
  destruct (xfer dev w2 false s2) as [r2 s3].
  destruct (xfer dev w3 true s3) as [r3 s4].
  reflexivity.
Qed.

Lemma ReadWrite429_shape (W : list Z) (s : S) :
  exists r0 r1 r2 r3 s', ReadWrite429 _ xfer dev W s = ([r0; r1; r2; r3], s').
Proof.
  unfold ReadWrite429, bind, ret.
  destruct (xfer dev (nth 0 W 0) false s) as [r0 s1].
  destruct (xfer dev (nth 1 W 0) false s1) as [r1 s2].
  destruct (xfer dev (nth 2 W 0) false s2) as [r2 s3].
  destruct (xfer dev (nth 3 W 0) true s3) as [r3 s4].
  eauto 6.
Qed.

(** Runs every telegram of a driver function against the logging
    transport, one after the other. *)
Ltac run_telegrams :=
  repeat (unfold bind, ret; rewrite ReadWrite429_logged;
          let R := fresh "R" in let w := fresh "w" in
          destruct (ReadWrite429 _ xfer _ _ _) as [R w]; cbv beta iota).

Lemma u8_shiftr_mod_pow2 (V k n : Z) :
  0 <= k -> k + 8 <= n -> u8 (Z.shiftr V k) = u8 (Z.shiftr (V mod 2 ^ n) k).
Proof.
  intros Hk Hn. unfold u8. change 256 with (2 ^ 8).
  rewrite <- !Z.land_ones by lia.
  apply Z.bits_inj'. intros i Hi.
  rewrite !Z.land_spec, !Z.shiftr_spec by lia.
  destruct (Z.ltb_spec i 8).
  - rewrite Z.ones_spec_low by lia. rewrite !andb_true_r.
    rewrite Z.land_spec, Z.ones_spec_low by lia. now rewrite andb_true_r.
  - rewrite Z.ones_spec_high by lia. rewrite !andb_false_r. reflexivity.
Qed.

Lemma land255_mod_pow2 (V n : Z) : 8 <= n -> Z.land V 255 = Z.land (V mod 2 ^ n) 255.
Proof.
  intros Hn. pose proof (u8_shiftr_mod_pow2 V 0 n) as H.
  rewrite !Z.shiftr_0_r in H. unfold u8 in H. change 256 with (2 ^ 8) in H.
  rewrite <- !Z.land_ones in H by lia. rewrite <- Z.land_ones by lia.
  change 255 with (Z.ones 8). apply H; lia.
Qed.

(** C6: the payload bytes of the 16-bit and 24-bit write accessors. *)
Theorem Write429Short_Int_payload (A V : Z) (s : S) :
  (0 <= V < 65536 ->
   sent_bytes (snd (snd (Write429Short _ (logged xfer) dev A V (s, []))))
   = [A; 0; V / 256; V mod 256])
  /\ (0 <= V < 2 ^ 24 ->
   sent_bytes (snd (snd (Write429Int _ (logged xfer) dev A V (s, []))))
   = [A; V / 65536; (V / 256) mod 256; V mod 256])
  /\ sent_bytes (snd (snd (Write429Short _ (logged xfer) dev A V (s, []))))
     = sent_bytes (snd (snd (Write429Short _ (logged xfer) dev A (V mod 2 ^ 16) (s, []))))
  /\ sent_bytes (snd (snd (Write429Int _ (logged xfer) dev A V (s, []))))
     = sent_bytes (snd (snd (Write429Int _ (logged xfer) dev A (V mod 2 ^ 24) (s, [])))).
Proof.
  unfold Write429Short, Write429Int.
  repeat split; intros; run_telegrams; simpl.
  - unfold u8. rewrite Z.shiftr_div_pow2 by lia.
    change (Z.land V 255) with (Z.land V (Z.ones 8)). rewrite Z.land_ones by lia.
    rewrite (Z.mod_small (V / 2 ^ 8)); [reflexivity |].
    split; [apply Z.div_pos; lia | apply Z.div_lt_upper_bound; lia].
  - unfold u8. rewrite !Z.shiftr_div_pow2 by lia.
    change (Z.land V 255) with (Z.land V (Z.ones 8)). rewrite Z.land_ones by lia.
    rewrite (Z.mod_small (V / 2 ^ 16)); [reflexivity |].
    split; [apply Z.div_pos; lia | apply Z.div_lt_upper_bound; lia].
  - rewrite (u8_shiftr_mod_pow2 V 8 16), (land255_mod_pow2 V 16) by lia.
    reflexivity.
  - rewrite (u8_shiftr_mod_pow2 V 16 24), (u8_shiftr_mod_pow2 V 8 24),
      (land255_mod_pow2 V 24) by lia.
    reflexivity.
Qed.

Variables READ U1 U2 U3 : Z.
Variable IDX_REFCONF_RM : Z -> Z.
Variables IDX_PULSEDIV_RAMPDIV IDX_PMUL_PDIV IDX_AMAX : Z -> Z.

(** C10: the first byte of every telegram: the address with the read flag
    OR-ed in for the reads (and the read phase of the read-modify-write
    setters), the bare address for the writes. *)
Theorem telegram_read_flag (A Axis Mode Index V h m l AMax : Z) (Bytes : list Z) (s : S) :
  telegram_heads (snd (snd (Read429Bytes _ (logged xfer) dev READ U1 U2 U3 A (s, []))))
    = [u8 (Z.lor A READ)]
  /\ telegram_heads (snd (snd (Read429SingleByte _ (logged xfer) dev READ U1 U2 U3 A Index (s, []))))
    = [u8 (Z.lor A READ)]
  /\ telegram_heads (snd (snd (Read429Int12 _ (logged xfer) dev READ U1 U2 U3 A (s, []))))
    = [u8 (Z.lor A READ)]
  /\ telegram_heads (snd (snd (Read429Int24 _ (logged xfer) dev READ U1 U2 U3 A (s, []))))
    = [u8 (Z.lor A READ)]
  /\ telegram_heads (snd (snd (Set429RampMode _ (logged xfer) dev READ IDX_REFCONF_RM
                                  U1 U2 U3 Axis Mode (s, []))))
    = [u8 (Z.lor (IDX_REFCONF_RM Axis) READ); u8 (IDX_REFCONF_RM Axis)]
  /\ telegram_heads (snd (snd (Set429SwitchMode _ (logged xfer) dev READ IDX_REFCONF_RM
                                  U1 U2 U3 Axis Mode (s, []))))
    = [u8 (Z.lor (IDX_REFCONF_RM Axis) READ); u8 (IDX_REFCONF_RM Axis)]
  /\ telegram_heads (snd (snd (SetAMax _ (logged xfer) dev READ IDX_PULSEDIV_RAMPDIV
                                  IDX_PMUL_PDIV IDX_AMAX U1 U2 U3 Axis AMax (s, []))))
    = [u8 (Z.lor (u8 (IDX_PULSEDIV_RAMPDIV Axis)) READ); u8 (IDX_PMUL_PDIV Axis);
       u8 (IDX_AMAX Axis)]
  /\ telegram_heads (snd (snd (Write429Bytes _ (logged xfer) dev A Bytes (s, [])))) = [A]
  /\ telegram_heads (snd (snd (Write429Datagram _ (logged xfer) dev A h m l (s, [])))) = [A]
  /\ telegram_heads (snd (snd (Write429Zero _ (logged xfer) dev A (s, [])))) = [A]
  /\ telegram_heads (snd (snd (Write429Short _ (logged xfer) dev A V (s, [])))) = [A]
  /\ telegram_heads (snd (snd (Write429Int _ (logged xfer) dev A V (s, [])))) = [A]
  /\ telegram_heads (snd (snd (Write429U16 _ (logged xfer) dev A V (s, [])))) = [A].
Proof.
  unfold SetAMax, Read429Bytes, Read429SingleByte, Read429Int12, Read429Int24,
    Set429RampMode, Set429SwitchMode, Write429Bytes, Write429Datagram, Write429Zero,
    Write429Short, Write429Int, Write429U16.
  repeat split; run_telegrams;
    try (destruct (amax_search _) as [pm pd]; run_telegrams);
    reflexivity.
Qed.

(** C7: the read-modify-write setters write back the bytes read, with
    only the mode byte replaced: the last payload byte for the ramp mode,
    the middle one for the switch mode. *)
Theorem Set429Mode_write_back (Axis RampMode SwitchMode st h m old : Z) (s s1 : S) :
  ReadWrite429 _ xfer dev [u8 (Z.lor (IDX_REFCONF_RM Axis) READ); U1; U2; U3] s
    = ([st; h; m; old], s1) ->
  snd (snd (Set429RampMode _ (logged xfer) dev READ IDX_REFCONF_RM U1 U2 U3
              Axis RampMode (s, [])))
  = telegram_log dev [u8 (Z.lor (IDX_REFCONF_RM Axis) READ); U1; U2; U3]
    ++ telegram_log dev [u8 (IDX_REFCONF_RM Axis); h; m; RampMode]
  /\ snd (snd (Set429SwitchMode _ (logged xfer) dev READ IDX_REFCONF_RM U1 U2 U3
                 Axis SwitchMode (s, [])))
  = telegram_log dev [u8 (Z.lor (IDX_REFCONF_RM Axis) READ); U1; U2; U3]
    ++ telegram_log dev [u8 (IDX_REFCONF_RM Axis); h; SwitchMode; old].
Proof.
  intros E. unfold Set429RampMode, Set429SwitchMode, bind, ret.
  split; rewrite ReadWrite429_logged, E; clear E; cbv beta iota;
    rewrite ReadWrite429_logged;
    destruct (ReadWrite429 _ xfer _ _ _); reflexivity.
Qed.

(** C9: [Read429SingleByte] returns payload byte [Index] (response byte
    [Index+1]) from within the buffer for [Index] in 0..2; [Index = 3]
    falls outside the 4-byte response buffer. *)
Theorem Read429SingleByte_index (A Index : Z) (s : S) :
  0 <= Index <= 2 ->
  fst (Read429SingleByte _ xfer dev READ U1 U2 U3 A Index s)
    = Some (nth (Z.to_nat Index) (snd (fst (Read429Bytes _ xfer dev READ U1 U2 U3 A s))) 0)
  /\ fst (Read429SingleByte _ xfer dev READ U1 U2 U3 A 3 s) = None.
Proof.
  intros HI. unfold Read429SingleByte, Read429Bytes, bind, ret.
  destruct (ReadWrite429_shape [u8 (Z.lor A READ); U1; U2; U3] s)
    as (r0 & r1 & r2 & r3 & s' & E).
  rewrite E.
  assert (Index = 0 \/ Index = 1 \/ Index = 2) as [-> | [-> | ->]] by lia;
    split; reflexivity.
Qed.

Lemma Read429Int12_response (A : Z) (s : S) (st b1 b2 b3 : Z) (s' : S) :
  ReadWrite429 _ xfer dev [u8 (Z.lor A READ); U1; U2; U3] s = ([st; b1; b2; b3], s') ->
  fst (Read429Int12 _ xfer dev READ U1 U2 U3 A s) = Read429Int12_on b1 b2 b3.
Proof.
  intros E. unfold Read429Int12, bind, ret. rewrite E. reflexivity.
Qed.

End Traces.

Lemma In_Zrange (lo : Z) (n : nat) (x : Z) :
  lo <= x < lo + Z.of_nat n -> In x (Zrange lo n).
Proof.
  intros H. unfold Zrange. apply in_map_iff.
  exists (Z.to_nat (x - lo)). split; [lia |].
  apply in_seq. lia.
Qed.

(** [Read429Int12] on every pair of low payload bytes. *)
Lemma int12_table :
  forallb (fun b2 => forallb (fun b3 =>
    Read429Int12_on 0 b2 b3 =? int12_decoded b2 b3) (Zrange 0 256)) (Zrange 0 256)
  = true.
Proof. vm_compute. reflexivity. Qed.

(** When [Read429Int12]'s result is the 12-bit sign extension, on every
    pair of low payload bytes. *)
Lemma int12_sext_table :
  forallb (fun b2 => forallb (fun b3 =>
    Bool.eqb (int12_decoded b2 b3 =? sext12 (b2 * 256 + b3))
             ((b2 <? 16) || (2048 <=? (b2 * 256 + b3) mod 4096))) (Zrange 0 256)) (Zrange 0 256)
  = true.
Proof. vm_compute. reflexivity. Qed.

(** C4 (as the code does it): [Read429Int12] gives the 12-bit sign extension
    when bit 11 of the two low payload bytes is set, and otherwise their
    16-bit value, whose bits 12..15 are kept; so the result is the 12-bit
    sign extension exactly when bit 11 is set or the high nibble of [b2] is
    clear, in particular on bytes whose bits 12..15 are clear, which is all
    a 12-bit register holds. *)
Theorem Read429Int12_decode (S : Type) (xfer : Z -> Z -> bool -> S -> Z * S)
  (dev READ U1 U2 U3 A : Z) (s : S) (st b1 b2 b3 : Z) (s' : S) :
  ReadWrite429 _ xfer dev [u8 (Z.lor A READ); U1; U2; U3] s = ([st; b1; b2; b3], s') ->
  0 <= b2 < 256 -> 0 <= b3 < 256 ->
  fst (Read429Int12 _ xfer dev READ U1 U2 U3 A s) = int12_decoded b2 b3
  /\ (b2 < 16 -> fst (Read429Int12 _ xfer dev READ U1 U2 U3 A s) = sext12 (b2 * 256 + b3))
  /\ (fst (Read429Int12 _ xfer dev READ U1 U2 U3 A s) = sext12 (b2 * 256 + b3)
      <-> b2 < 16 \/ 2048 <= (b2 * 256 + b3) mod 4096).
Proof.
  intros E H2 H3. rewrite (Read429Int12_response _ _ _ _ _ _ _ _ _ _ _ _ _ _ E).
  assert (Hc : Read429Int12_on 0 b2 b3 = int12_decoded b2 b3).
  { pose proof int12_table as T.
    rewrite forallb_forall in T. specialize (T b2 (In_Zrange 0 256 b2 ltac:(lia))).
    rewrite forallb_forall in T. specialize (T b3 (In_Zrange 0 256 b3 ltac:(lia))).
    apply Z.eqb_eq in T. exact T. }
  assert (Hb : Read429Int12_on b1 b2 b3 = Read429Int12_on 0 b2 b3) by reflexivity.
  rewrite Hb, Hc. split; [reflexivity |].
  assert (Hx : int12_decoded b2 b3 = sext12 (b2 * 256 + b3)
               <-> b2 < 16 \/ 2048 <= (b2 * 256 + b3) mod 4096).
  { pose proof int12_sext_table as T.
    rewrite forallb_forall in T. specialize (T b2 (In_Zrange 0 256 b2 ltac:(lia))).
    rewrite forallb_forall in T. specialize (T b3 (In_Zrange 0 256 b3 ltac:(lia))).
    apply Bool.eqb_prop in T.
    rewrite <- Z.ltb_lt, <- Z.leb_le, <- Bool.orb_true_iff, <- T, Z.eqb_eq.
    reflexivity. }
  split; [| exact Hx].
  intros Hlt. apply Hx. left. exact Hlt.
Qed.

(** ** Exactness of the [pmul] computation *)

Lemma Zdigits2_log2 (z : Z) : 0 < z -> Zdigits2 z = Z.log2 z + 1.
Proof.
  destruct z as [| p | p]; try lia. intros _. simpl Zdigits2.
  induction p as [p IH | p IH |]; simpl digits2_pos.
  - rewrite Pos2Z.inj_succ, IH, Pos2Z.inj_xI, Z.log2_succ_double by lia. lia.
  - rewrite Pos2Z.inj_succ, IH, Pos2Z.inj_xO, Z.log2_double by lia. lia.
  - reflexivity.
Qed.

Lemma Zdigits2_mul_pow2 (m : positive) (j : Z) :
  0 <= j -> Zdigits2 (Zpos m * 2 ^ j) = Zdigits2 (Zpos m) + j.
Proof.
  intros Hj.
  assert (0 < 2 ^ j) by (apply Z.pow_pos_nonneg; lia).
  rewrite !Zdigits2_log2 by nia. rewrite Z.log2_mul_pow2 by lia. lia.
Qed.

Lemma iter_pos_nat {A : Type} (f : A -> A) (p : positive) (x : A) :
  iter_pos f p x = Nat.iter (Pos.to_nat p) f x.
Proof.
  revert x. induction p as [p IH | p IH |]; intros x; simpl iter_pos.
  - rewrite !IH, Pos2Nat.inj_xI, <- Nat.iter_add, Nat.iter_swap. simpl.
    f_equal. f_equal. lia.
  - rewrite !IH, Pos2Nat.inj_xO, <- Nat.iter_add. f_equal. lia.
  - reflexivity.
Qed.

Lemma shr_1_iter_exact (n : nat) (m : positive) :
  Nat.iter n shr_1 {| shr_m := Zpos m * 2 ^ Z.of_nat n; shr_r := false; shr_s := false |}
  = {| shr_m := Zpos m; shr_r := false; shr_s := false |}.
Proof.
  revert m. induction n as [| n IH]; intros m.
  - change (2 ^ Z.of_nat 0) with 1. rewrite Z.mul_1_r. reflexivity.
  - change (Nat.iter (S n) shr_1 ?x) with (shr_1 (Nat.iter n shr_1 x)).
    replace (Zpos m * 2 ^ Z.of_nat (S n)) with (Zpos m~0 * 2 ^ Z.of_nat n)
      by (rewrite Nat2Z.inj_succ, Z.pow_succ_r, Pos2Z.inj_xO by lia; lia).
    rewrite IH. reflexivity.
Qed.

(** Rounding [m * 2^j * 2^e], where [m] has exactly [prec] digits, is
    exact when the exponent [e + j] is in range. *)
Lemma binary_round_aux_exact (prec emax : Z) (sx : bool) (m : positive) (e j : Z) :
  Zdigits2 (Zpos m) = prec -> 0 <= j -> emin prec emax <= e + j ->
  e + j <= emax - prec ->
  binary_round_aux prec emax sx (Zpos m * 2 ^ j) e loc_Exact = S754_finite sx m (e + j).
Proof.
  intros Hd Hj Hmin Hmax.
  unfold binary_round_aux, shr_fexp, shr_record_of_loc.
  rewrite Zdigits2_mul_pow2 by lia. rewrite Hd.
  replace (fexp prec emax (prec + j + e) - e) with j
    by (unfold fexp; rewrite Z.max_l by lia; lia).
  assert (Hshr : shr {| shr_m := Zpos m * 2 ^ j; shr_r := false; shr_s := false |} e j
                 = ({| shr_m := Zpos m; shr_r := false; shr_s := false |}, e + j)).
  { unfold shr. destruct j as [| p | p]; try lia.
    - rewrite Z.mul_1_r, Z.add_0_r. reflexivity.
    - rewrite iter_pos_nat.
      rewrite <- (positive_nat_Z p) at 1. rewrite shr_1_iter_exact. reflexivity. }
  rewrite Hshr. cbv beta iota. simpl shr_m. simpl loc_of_shr_record.
  simpl round_nearest_even. rewrite Hd.
  replace (fexp prec emax (prec + (e + j)) - (e + j)) with 0
    by (unfold fexp; rewrite Z.max_l by lia; lia).
  simpl. rewrite (proj2 (Z.leb_le _ _) Hmax). reflexivity.
Qed.

Lemma D_of_F_exact (m : positive) (e : Z) :
  Zdigits2 (Zpos m) <= 24 -> -149 <= e <= 104 ->
  exists M : positive,
    Zpos M = Z.shiftl (Zpos m) (53 - Zdigits2 (Zpos m))
    /\ Zdigits2 (Zpos M) = 53
    /\ D_of_F (S754_finite false m e)
       = S754_finite false M (e - (53 - Zdigits2 (Zpos m))).
Proof.
  intros Hd He.
  assert (Hd1 : 1 <= Zdigits2 (Zpos m))
    by (rewrite Zdigits2_log2 by lia; pose proof (Z.log2_nonneg (Zpos m)); lia).
  set (d := Zdigits2 (Zpos m)) in *.
  set (p := Z.to_pos (53 - d)).
  assert (Hp : Zpos p = 53 - d) by (unfold p; rewrite Z2Pos.id by lia; reflexivity).
  assert (HM : Zpos (Pos.iter xO m p) = Z.shiftl (Zpos m) (53 - d)).
  { rewrite <- Hp. unfold Z.shiftl.
    apply (Pos.iter_swap_gen _ _ Zpos xO (Z.mul 2)). reflexivity. }
  assert (HdM : Zdigits2 (Zpos (Pos.iter xO m p)) = 53).
  { rewrite HM, Z.shiftl_mul_pow2 by lia. rewrite Zdigits2_mul_pow2 by lia.
    fold d. lia. }
  exists (Pos.iter xO m p). split; [exact HM |]. split; [exact HdM |].
  unfold D_of_F, binary_round, shl_align.
  change (Zpos (digits2_pos m)) with d.
  replace (fexp 53 1024 (d + e)) with (d + e - 53)
    by (unfold fexp, emin; rewrite Z.max_l by lia; reflexivity).
  replace (d + e - 53 - e) with (Zneg p) by lia.
  cbv beta iota.
  rewrite <- (Z.mul_1_r (Zpos (Pos.iter xO m p))). change 1 with (2 ^ 0).
  rewrite binary_round_aux_exact by (unfold emin; lia).
  f_equal. lia.
Qed.

(** [(double) (1<<pdiv)] for the exponents of the loop. *)
Lemma D_of_Z_pow2 (pdiv : Z) :
  0 <= pdiv <= 13 ->
  D_of_Z (Z.shiftl 1 pdiv) = S754_finite false 4503599627370496 (pdiv - 52).
Proof.
  intros H.
  assert (pdiv = 0 \/ pdiv = 1 \/ pdiv = 2 \/ pdiv = 3 \/ pdiv = 4 \/ pdiv = 5 \/
          pdiv = 6 \/ pdiv = 7 \/ pdiv = 8 \/ pdiv = 9 \/ pdiv = 10 \/ pdiv = 11 \/
          pdiv = 12 \/ pdiv = 13) as Hc by lia.
  repeat destruct Hc as [-> | Hc]; try (subst; reflexivity).
Qed.

(** Multiplying a double with a 53-digit mantissa by [(double) 8] or by
    [(double) (1<<pdiv)] is exact. *)
Lemma Dmul_pow2_exact (M : positive) (E k : Z) :
  Zdigits2 (Zpos M) = 53 -> -1074 <= E + k + 52 <= 971 ->
  Dmul (S754_finite false M E) (S754_finite false 4503599627370496 k)
  = S754_finite false M (E + k + 52).
Proof.
  intros Hd HE. unfold Dmul, SFmul. cbn [xorb].
  rewrite Pos2Z.inj_mul. change (Zpos 4503599627370496) with (2 ^ 52).
  rewrite binary_round_aux_exact by (unfold emin; lia). reflexivity.
Qed.

Lemma amax_pmul_exact (m : positive) (e pdiv : Z) :
  Zdigits2 (Zpos m) <= 24 -> -149 <= e <= 104 -> 0 <= pdiv <= 13 ->
  amax_pmul (S754_finite false m e) pdiv = Z.shiftl (Zpos m) (e + 3 + pdiv) - 128.
Proof.
  intros Hd He Hp.
  assert (Hd1 : 1 <= Zdigits2 (Zpos m))
    by (rewrite Zdigits2_log2 by lia; pose proof (Z.log2_nonneg (Zpos m)); lia).
  destruct (D_of_F_exact m e Hd He) as (M & HM & HdM & HF).
  unfold amax_pmul. rewrite HF, D_of_Z_pow2 by lia.
  change (D_of_Z 8) with (S754_finite false 4503599627370496 (-49)).
  rewrite Dmul_pow2_exact by lia. rewrite Dmul_pow2_exact by lia.
  unfold trunc_Z. cbn [cond_Zopp]. rewrite HM, Z.shiftl_shiftl by lia.
  f_equal. f_equal. lia.
Qed.

Lemma pmul_spec_finite (m : positive) (e pdiv : Z) :
  0 <= pdiv ->
  pmul_spec (Q_of_SF (S754_finite false m e)) pdiv = Z.shiftl (Zpos m) (e + 3 + pdiv) - 128.
Proof.
  intros Hp. unfold pmul_spec, Q_of_SF. cbn [cond_Zopp].
  assert (H2p : 0 < 2 ^ pdiv) by (apply Z.pow_pos_nonneg; lia).
  destruct (Z.leb_spec 0 e) as [He | He].
  - unfold inject_Z, Qmult, Qfloor. cbn [Qnum Qden Pos.mul].
    rewrite Z.div_1_r, Z.shiftl_mul_pow2 by lia.
    rewrite !Z.pow_add_r by lia. change (2 ^ 3) with 8. ring.
  - unfold inject_Z, Qmult, Qfloor. cbn [Qnum Qden].
    rewrite !Pos.mul_1_r, Z2Pos.id by (apply Z.pow_pos_nonneg; lia).
    destruct (Z.leb_spec 0 (e + 3 + pdiv)) as [Hk | Hk].
    + rewrite Z.shiftl_mul_pow2 by lia.
      replace (Zpos m * 8 * 2 ^ pdiv) with (Zpos m * 2 ^ (e + 3 + pdiv) * 2 ^ (- e)).
      * rewrite Z.div_mul by (apply Z.pow_nonzero; lia). reflexivity.
      * rewrite <- Z.mul_assoc, <- Z.pow_add_r by lia.
        replace (e + 3 + pdiv + - e) with (3 + pdiv) by lia.
        rewrite Z.pow_add_r by lia. change (2 ^ 3) with 8. ring.
    + replace (e + 3 + pdiv) with (- (- (e + 3 + pdiv))) by lia.
      rewrite Z.shiftl_opp_r, Z.shiftr_div_pow2 by lia.
      replace (2 ^ (- e)) with (2 ^ (- (e + 3 + pdiv)) * 2 ^ (3 + pdiv))
        by (rewrite <- Z.pow_add_r by lia; f_equal; lia).
      replace (Zpos m * 8 * 2 ^ pdiv) with (Zpos m * 2 ^ (3 + pdiv))
        by (rewrite Z.pow_add_r by lia; change (2 ^ 3) with 8; ring).
      rewrite Z.div_mul_cancel_r by (apply Z.pow_nonzero; lia). reflexivity.
Qed.

Lemma In_max_list (y : Z) (v : list Z) : In (fold_left Z.max v y) (y :: v).
Proof.
  revert y. induction v as [| z v IH]; intros y; [left; reflexivity |].
  simpl fold_left. specialize (IH (Z.max y z)).
  destruct (Z.max_spec y z) as [[_ Hm] | [_ Hm]]; rewrite Hm in IH |- *;
    destruct IH as [Heq | Hin]; rewrite <- ?Heq; simpl; intuition.
Qed.

(** The loop keeps the pair of the last, hence largest, valid [pdiv] of an
    increasing list. *)
Lemma amax_fold_largest (pr : spec_float) (l : list Z) (acc : Z * Z) :
  StronglySorted Z.lt l ->
  fold_left (amax_step pr) l acc
  = match filter (fun pdiv => pmul_valid (amax_pmul pr pdiv)) l with
    | [] => acc
    | pd0 :: rest => let pd := fold_left Z.max rest pd0 in (amax_pmul pr pd + 128, pd)
    end.
Proof.
  revert acc. induction l as [| x l IH]; intros acc Hs; [reflexivity |].
  inversion Hs as [| ? ? Hs' Hlt]; subst.
  simpl fold_left. rewrite IH by assumption.
  replace (amax_step pr acc x)
    with (if pmul_valid (amax_pmul pr x) then (amax_pmul pr x + 128, x) else acc)
    by reflexivity.
  simpl filter. destruct (pmul_valid (amax_pmul pr x)) eqn:Hv.
  - destruct (filter (fun pdiv => pmul_valid (amax_pmul pr pdiv)) l) as [| y v] eqn:Hf.
    + reflexivity.
    + assert (Hy : x < y).
      { assert (In y l) as Hyl.
        { assert (In y (y :: v)) as Hyv by (left; reflexivity).
          rewrite <- Hf in Hyv. apply filter_In in Hyv. tauto. }
        rewrite Forall_forall in Hlt. exact (Hlt y Hyl). }
      simpl fold_left. rewrite Z.max_r by lia. reflexivity.
  - destruct (filter (fun pdiv => pmul_valid (amax_pmul pr pdiv)) l); reflexivity.
Qed.

Lemma pdiv_range_sorted : StronglySorted Z.lt pdiv_range.
Proof.
  unfold pdiv_range; simpl.
  repeat (apply SSorted_cons; [| repeat (apply Forall_cons; [lia |]); apply Forall_nil]).
  apply SSorted_nil.
Qed.

Lemma pdiv_range_bounds (pdiv : Z) : In pdiv pdiv_range -> 0 <= pdiv <= 13.
Proof.
  unfold pdiv_range. intros H. apply in_map_iff in H as (k & <- & Hk).
  apply in_seq in Hk. lia.
Qed.

(** ** [p_reduced] on the inputs of [SetAMax] *)

(** [p] depends on the two divider exponents only through their
    difference. *)
Lemma amax_p_shift (a pd rd : Z) :
  amax_p a pd rd = if pd <=? rd then amax_p a 0 (rd - pd) else amax_p a (pd - rd) 0.
Proof.
  unfold amax_p. destruct (Z.leb_spec pd rd).
  - rewrite (proj2 (Z.leb_le 0 (rd - pd))) by lia. rewrite Z.sub_0_r. reflexivity.
  - rewrite (proj2 (Z.leb_gt (pd - rd) 0)) by lia. rewrite Z.sub_0_r. reflexivity.
Qed.

(** [p_reduced] is [+0] or a positive binary32 number for every masked
    [AMax] and every difference of the two divider exponents. *)
Lemma p_reduced_table :
  forallb (fun a => forallb (fun k =>
    nonneg_binary32 (amax_p_reduced a 0 k) && nonneg_binary32 (amax_p_reduced a k 0))
    (Zrange 0 16)) (Zrange 0 2048)
  = true.
Proof. vm_compute. reflexivity. Qed.

Lemma p_reduced_nonneg (a pd rd : Z) :
  0 <= a < 2048 -> 0 <= pd < 16 -> 0 <= rd < 16 ->
  nonneg_binary32 (amax_p_reduced a pd rd) = true.
Proof.
  intros Ha Hpd Hrd.
  pose proof p_reduced_table as T.
  rewrite forallb_forall in T. specialize (T a (In_Zrange 0 2048 a ltac:(lia))).
  rewrite forallb_forall in T.
  unfold amax_p_reduced. rewrite amax_p_shift. destruct (Z.leb_spec pd rd).
  - specialize (T (rd - pd) (In_Zrange 0 16 (rd - pd) ltac:(lia))).
    apply andb_prop in T. exact (proj1 T).
  - specialize (T (pd - rd) (In_Zrange 0 16 (pd - rd) ltac:(lia))).
    apply andb_prop in T. exact (proj2 T).
Qed.

Lemma amax_pmul_zero (pdiv : Z) :
  0 <= pdiv <= 13 -> amax_pmul (S754_zero false) pdiv = -128.
Proof.
  intros Hp. unfold amax_pmul. rewrite D_of_Z_pow2 by lia. reflexivity.
Qed.

(** On a [+0] or positive [float], the truncation of the code is the floor
    of the exact product. *)
Lemma amax_pmul_spec (pr : spec_float) (pdiv : Z) :
  nonneg_binary32 pr = true -> 0 <= pdiv <= 13 ->
  amax_pmul pr pdiv = pmul_spec (Q_of_SF pr) pdiv.
Proof.
  intros Hn Hp. destruct pr as [[|] | [|] | | [|] m e]; try discriminate.
  - rewrite amax_pmul_zero by lia. unfold pmul_spec, Q_of_SF, Qfloor, Qmult.
    simpl. reflexivity.
  - unfold nonneg_binary32 in Hn. apply andb_prop in Hn as [Hn He2]. apply andb_prop in Hn as [Hd He1].
    apply Z.leb_le in Hd, He1, He2.
    rewrite amax_pmul_exact, pmul_spec_finite by lia. reflexivity.
Qed.

Lemma land2047_bounds (AMax : Z) : 0 <= Z.land AMax 2047 < 2048.
Proof.
  change 2047 with (Z.ones 11). rewrite Z.land_ones by lia.
  apply Z.mod_pos_bound. lia.
Qed.

Lemma divider_bounds (b : Z) :
  0 <= b < 256 -> 0 <= Z.shiftr b 4 < 16 /\ 0 <= Z.land b 15 < 16.
Proof.
  intros Hb. rewrite Z.shiftr_div_pow2 by lia. change 15 with (Z.ones 4).
  rewrite Z.land_ones by lia. change (2 ^ 4) with 16.
  split; [split; [apply Z.div_pos | apply Z.div_lt_upper_bound] | apply Z.mod_pos_bound]; lia.
Qed.

(** C1: for every [AMax] and every divider byte [b], the loop of [SetAMax]
    yields the pair [(pmul + 128, pdiv)] of the largest [pdiv] in 0..13
    whose [pmul = floor(p_reduced * 8 * 2^pdiv) - 128] (computed on the
    exact value of the [float] [p_reduced]) lies in 0..127, and keeps the
    sentinel [(-1, -1)] when there is none. *)
Theorem SetAMax_search_largest (AMax b : Z) :
  0 <= b < 256 ->
  amax_search (amax_p_reduced (Z.land AMax 2047) (Z.shiftr b 4) (Z.land b 15))
  = amax_search_spec
      (Q_of_SF (amax_p_reduced (Z.land AMax 2047) (Z.shiftr b 4) (Z.land b 15))).
Proof.
  intros Hb.
  set (pr := amax_p_reduced (Z.land AMax 2047) (Z.shiftr b 4) (Z.land b 15)).
  assert (Hn : nonneg_binary32 pr = true).
  { pose proof (land2047_bounds AMax). pose proof (divider_bounds b Hb).
    apply p_reduced_nonneg; lia. }
  unfold amax_search, amax_search_spec, valid_pdivs.
  rewrite (amax_fold_largest pr pdiv_range (-1, -1) pdiv_range_sorted).
  rewrite (filter_ext_in _ (fun pdiv => pmul_valid (pmul_spec (Q_of_SF pr) pdiv)))
    by (intros x Hx; rewrite amax_pmul_spec by auto using pdiv_range_bounds; reflexivity).
  destruct (filter (fun pdiv => pmul_valid (pmul_spec (Q_of_SF pr) pdiv)) pdiv_range)
    as [| pd0 rest] eqn:Hf; [reflexivity |].
  assert (Hin : In (fold_left Z.max rest pd0) pdiv_range).
  { pose proof (In_max_list pd0 rest) as H. rewrite <- Hf in H.
    apply filter_In in H. tauto. }
  cbv zeta. rewrite amax_pmul_spec by auto using pdiv_range_bounds. reflexivity.
Qed.

(** ** The telegrams of [SetAMax] *)

Section SetAMax_traces.

Variable S : Type.
Variable xfer : Z -> Z -> bool -> S -> Z * S.
Variables dev READ U1 U2 U3 : Z.
Variables IDX_PULSEDIV_RAMPDIV IDX_PMUL_PDIV IDX_AMAX : Z -> Z.

(** The read telegram of [SetAMax] for motor [Motor]. *)
Let read_telegram (Motor : Z) : list Z :=
  [u8 (Z.lor (u8 (IDX_PULSEDIV_RAMPDIV Motor)) READ); U1; U2; U3].

Lemma SetAMax_run (Motor AMax : Z) (s : S) (st h d l : Z) (s1 : S) :
  ReadWrite429 _ xfer dev (read_telegram Motor) s = ([st; h; d; l], s1) ->
  let A := Z.land AMax 2047 in
  let '(pm, pd) := amax_search (amax_p_reduced A (Z.shiftr d 4) (Z.land d 15)) in
  fst (SetAMax _ (logged xfer) dev READ IDX_PULSEDIV_RAMPDIV IDX_PMUL_PDIV IDX_AMAX
         U1 U2 U3 Motor AMax (s, [])) = 0
  /\ snd (snd (SetAMax _ (logged xfer) dev READ IDX_PULSEDIV_RAMPDIV IDX_PMUL_PDIV
                IDX_AMAX U1 U2 U3 Motor AMax (s, [])))
     = telegram_log dev (read_telegram Motor)
       ++ telegram_log dev [u8 (IDX_PMUL_PDIV Motor); 0; u8 pm; u8 pd]
       ++ telegram_log dev [u8 (IDX_AMAX Motor); 0; u8 (Z.shiftr A 8); Z.land A 255].
Proof.
  intros E. unfold SetAMax, Read429Bytes, Write429Bytes, Write429U16, bind, ret.
  cbv beta zeta. unfold read_telegram in E.
  destruct (amax_search (amax_p_reduced (Z.land AMax 2047) (Z.shiftr d 4) (Z.land d 15)))
    as [pm pd] eqn:Hs.
  rewrite ReadWrite429_logged, E. cbv beta iota. cbn [fst snd nth]. rewrite Hs.
  cbv beta iota.
  rewrite (ReadWrite429_logged S xfer dev).
  destruct (ReadWrite429 S xfer dev [u8 (IDX_PMUL_PDIV Motor); 0; u8 pm; u8 pd] s1)
    as [R1 w1].
  cbv beta iota. rewrite (ReadWrite429_logged S xfer dev).
  destruct (ReadWrite429 S xfer dev [u8 (IDX_AMAX Motor); 0; u8 (Z.shiftr (Z.land AMax 2047) 8);
                                     Z.land (Z.land AMax 2047) 255] w1) as [R2 w2].
  cbv beta iota.
  split; reflexivity.
Qed.


(** C3 (as the code does it): [SetAMax] reduces [AMax] modulo 2048 (it
    masks it to 11 bits), it does not clamp it: [SetAMax] on [AMax] and on
    [AMax mod 2048] are the same computation, and the AMAX telegram
    carries [0], then the two bytes of [AMax mod 2048]. *)
Theorem SetAMax_masks_AMax (Motor AMax : Z) (s : S) (st h d l : Z) (s1 : S) :
  ReadWrite429 _ xfer dev (read_telegram Motor) s = ([st; h; d; l], s1) ->
  (forall w : S,
     SetAMax _ xfer dev READ IDX_PULSEDIV_RAMPDIV IDX_PMUL_PDIV IDX_AMAX U1 U2 U3
       Motor AMax w
     = SetAMax _ xfer dev READ IDX_PULSEDIV_RAMPDIV IDX_PMUL_PDIV IDX_AMAX U1 U2 U3
         Motor (AMax mod 2048) w)
  /\ skipn 8 (snd (snd (SetAMax _ (logged xfer) dev READ IDX_PULSEDIV_RAMPDIV
                          IDX_PMUL_PDIV IDX_AMAX U1 U2 U3 Motor AMax (s, []))))
     = telegram_log dev [u8 (IDX_AMAX Motor); 0; (AMax mod 2048) / 256; AMax mod 256].
Proof.
  intros E.
  assert (Hm : Z.land AMax 2047 = AMax mod 2048)
    by (change 2047 with (Z.ones 11); rewrite Z.land_ones by lia; reflexivity).
  split.
  - assert (Hm2 : Z.land (AMax mod 2048) 2047 = AMax mod 2048).
    { change 2047 with (Z.ones 11). rewrite Z.land_ones by lia.
      change (2 ^ 11) with 2048. apply Z.mod_mod. lia. }
    intros w. unfold SetAMax. rewrite Hm, Hm2. reflexivity.
  - pose proof (SetAMax_run Motor AMax s st h d l s1 E) as Hr. cbv zeta in Hr.
    destruct (amax_search _) as [pm pd]. rewrite (proj2 Hr). simpl skipn.
    rewrite Hm. f_equal. unfold u8.
    assert (0 <= AMax mod 2048 < 2048) by (apply Z.mod_pos_bound; lia).
    rewrite Z.shiftr_div_pow2 by lia. change (2 ^ 8) with 256.
    rewrite (Z.mod_small ((AMax mod 2048) / 256)) by (split; [apply Z.div_pos | apply Z.div_lt_upper_bound]; lia).
    change 255 with (Z.ones 8). rewrite Z.land_ones by lia. change (2 ^ 8) with 256.
    rewrite <- (Z.mod_mod_divide AMax 2048 256) by (exists 8; reflexivity).
    reflexivity.
Qed.

(** C8 (as the code does it): the divider byte [0x76] decodes to
    [pulse_div = 7] and [ramp_div = 6]; with [AMax = 1000], on every call
    and whatever the state of the transport, [SetAMax] writes the pair
    [(pm, pd) = (247, 1)] and [AMax = 0x3E8]. *)
Theorem SetAMax_divider_0x76 (Motor : Z) (s : S) (st h l : Z) (s1 : S) :
  ReadWrite429 _ xfer dev (read_telegram Motor) s = ([st; h; 118; l], s1) ->
  Z.shiftr 118 4 = 7 /\ Z.land 118 15 = 6
  /\ fst (SetAMax _ (logged xfer) dev READ IDX_PULSEDIV_RAMPDIV IDX_PMUL_PDIV IDX_AMAX
            U1 U2 U3 Motor 1000 (s, [])) = 0
  /\ snd (snd (SetAMax _ (logged xfer) dev READ IDX_PULSEDIV_RAMPDIV IDX_PMUL_PDIV
                IDX_AMAX U1 U2 U3 Motor 1000 (s, [])))
     = telegram_log dev (read_telegram Motor)
       ++ telegram_log dev [u8 (IDX_PMUL_PDIV Motor); 0; 247; 1]
       ++ telegram_log dev [u8 (IDX_AMAX Motor); 0; 3; 232].
Proof.
  intros E. pose proof (SetAMax_run Motor 1000 s st h 118 l s1 E) as Hr.
  cbv zeta in Hr.
  replace (amax_search (amax_p_reduced (Z.land 1000 2047) (Z.shiftr 118 4) (Z.land 118 15)))
    with (247, 1) in Hr by (vm_compute; reflexivity).
  split; [reflexivity |]. split; [reflexivity |]. exact Hr.
Qed.

End SetAMax_traces.

(** * Further properties of the driver *)

(** ** Bit-level helpers *)

Lemma lor_low_add (a b k : Z) :
  0 <= k -> 0 <= b < 2 ^ k -> Z.lor (a * 2 ^ k) b = a * 2 ^ k + b.
Proof.
  intros Hk Hb.
  assert (Hl : Z.land (a * 2 ^ k) b = 0).
  { apply Z.bits_inj'. intros i Hi.
    rewrite Z.land_spec, Z.bits_0, Z.mul_pow2_bits by lia.
    destruct (Z.ltb_spec i k).
    - rewrite (Z.testbit_neg_r a (i - k)) by lia. reflexivity.
    - rewrite <- (Z.mod_small b (2 ^ k)) by lia.
      rewrite Z.mod_pow2_bits_high by lia. apply andb_false_r. }
  pose proof (Z.add_lor_land (a * 2 ^ k) b). lia.
Qed.

Lemma land_pow2_eqb (r n : Z) :
  0 <= n -> (Z.land r (2 ^ n) =? 0) = negb (Z.testbit r n).
Proof.
  intros Hn. destruct (Z.testbit r n) eqn:Ht; simpl.
  - apply Z.eqb_neq. intros H.
    assert (Hb : Z.testbit (Z.land r (2 ^ n)) n = false) by (rewrite H; apply Z.bits_0).
    rewrite Z.land_spec, Ht, Z.pow2_bits_true in Hb by lia. discriminate.
  - apply Z.eqb_eq. apply Z.bits_inj'. intros i Hi.
    rewrite Z.land_spec, Z.bits_0, Z.pow2_bits_eqb by lia.
    destruct (Z.eqb_spec n i) as [<- | _]; [rewrite Ht; reflexivity | apply andb_false_r].
Qed.

Lemma testbit_top (r n : Z) :
  0 <= n -> 0 <= r < 2 ^ (n + 1) -> Z.testbit r n = (2 ^ n <=? r).
Proof.
  intros Hn Hr. rewrite Z.pow_add_r in Hr by lia. change (2 ^ 1) with 2 in Hr.
  assert (Hp : 0 < 2 ^ n) by (apply Z.pow_pos_nonneg; lia).
  destruct (Z.leb_spec (2 ^ n) r).
  - apply Z.testbit_true; [lia |].
    replace (r / 2 ^ n) with 1; [reflexivity |].
    apply Z.div_unique with (r - 2 ^ n); lia.
  - apply Z.testbit_false; [lia |]. rewrite Z.div_small by lia. reflexivity.
Qed.

(** The three bytes of [V], MSB first, put together again give [V] modulo
    [2^24]. *)
Lemma bytes24 (V : Z) :
  exists q, V = 16777216 * q + ((V / 65536) mod 256 * 65536 + (V / 256) mod 256 * 256
                               + V mod 256)
  /\ 0 <= (V / 65536) mod 256 < 256 /\ 0 <= (V / 256) mod 256 < 256
  /\ 0 <= V mod 256 < 256.
Proof.
  exists (V / 65536 / 256).
  pose proof (Z.div_mod V 256 ltac:(lia)) as E0.
  pose proof (Z.div_mod (V / 256) 256 ltac:(lia)) as E1.
  pose proof (Z.div_mod (V / 65536) 256 ltac:(lia)) as E2.
  rewrite Z.div_div in E1 by lia. change (256 * 256) with 65536 in E1.
  pose proof (Z.mod_pos_bound V 256 ltac:(lia)).
  pose proof (Z.mod_pos_bound (V / 256) 256 ltac:(lia)).
  pose proof (Z.mod_pos_bound (V / 65536) 256 ltac:(lia)).
  lia.
Qed.

(** ** [Read429Int24] *)
Lemma Read429Int24_response (S : Type) (xfer : Z -> Z -> bool -> S -> Z * S)
  (dev READ U1 U2 U3 A : Z) (s : S) (st b1 b2 b3 : Z) (s' : S) :
  ReadWrite429 _ xfer dev [u8 (Z.lor A READ); U1; U2; U3] s = ([st; b1; b2; b3], s') ->
  0 <= b1 < 256 -> 0 <= b2 < 256 -> 0 <= b3 < 256 ->
  let r := b1 * 65536 + b2 * 256 + b3 in
  fst (Read429Int24 _ xfer dev READ U1 U2 U3 A s)
  = if r <? 8388608 then r else r - 16777216.
Proof.
  intros E H1 H2 H3 r. unfold Read429Int24, bind, ret. rewrite E. cbn [fst nth].

  replace (Z.lor (Z.lor (Z.shiftl b1 16) (Z.shiftl b2 8)) b3) with r.
  2:{ unfold r. replace (Z.shiftl b1 16) with (Z.shiftl (Z.shiftl b1 8) 8)
        by (rewrite Z.shiftl_shiftl by lia; reflexivity).
      rewrite <- Z.shiftl_lor.
      rewrite !Z.shiftl_mul_pow2 by lia. rewrite lor_low_add by (simpl; lia).

      rewrite lor_low_add by (simpl; lia). simpl. lia. }

  assert (Hr : 0 <= r < 16777216) by (unfold r; lia).

  change 8388608 with (2 ^ 23). rewrite land_pow2_eqb by lia.
  rewrite testbit_top by (simpl; lia).
  destruct (Z.leb_spec (2 ^ 23) r); destruct (Z.ltb_spec r (2 ^ 23)); try lia;
    simpl negb; cbv iota; [| reflexivity].

  rewrite Z.lor_comm. change 4278190080 with (255 * 2 ^ 24).
  rewrite lor_low_add by lia. unfold s32.
  rewrite Z.mod_small by lia.
  destruct (Z.ltb_spec (255 * 2 ^ 24 + r) (2 ^ 31)); lia.
Qed.


(** X1: on a response whose payload bytes are [b1 b2 b3], [Read429Int24]
    returns the 24-bit value [b1*65536 + b2*256 + b3] sign-extended from
    bit 23 (the sign is the top bit of [b1]), a value in [-2^23, 2^23). *)
Theorem Read429Int24_decode (S : Type) (xfer : Z -> Z -> bool -> S -> Z * S)
  (dev READ U1 U2 U3 A : Z) (s : S) (st b1 b2 b3 : Z) (s' : S) :
  ReadWrite429 _ xfer dev [u8 (Z.lor A READ); U1; U2; U3] s = ([st; b1; b2; b3], s') ->
  0 <= b1 < 256 -> 0 <= b2 < 256 -> 0 <= b3 < 256 ->
  let r := b1 * 65536 + b2 * 256 + b3 in
  fst (Read429Int24 _ xfer dev READ U1 U2 U3 A s)
  = (if b1 <? 128 then r else r - 16777216)
  /\ -8388608 <= fst (Read429Int24 _ xfer dev READ U1 U2 U3 A s) < 8388608.
Proof.
  intros E H1 H2 H3 r.
  rewrite (Read429Int24_response S xfer dev READ U1 U2 U3 A s st b1 b2 b3 s' E H1 H2 H3).
  fold r. unfold r.
  destruct (Z.ltb_spec (b1 * 65536 + b2 * 256 + b3) 8388608);
    destruct (Z.ltb_spec b1 128); lia.
Qed.

Section Payloads.

Variable S : Type.
Variable xfer : Z -> Z -> bool -> S -> Z * S.
Variable dev : Z.

Lemma Write429Int_log (B V : Z) (s : S) (log : list Event) :
  snd (snd (Write429Int _ (logged xfer) dev B V (s, log)))
  = log ++ telegram_log dev [B; u8 (Z.shiftr V 16); u8 (Z.shiftr V 8); Z.land V 255].
Proof.
  unfold Write429Int, bind, ret. rewrite ReadWrite429_logged.
  destruct (ReadWrite429 _ xfer _ _ _). reflexivity.
Qed.

Lemma Write429Short_log (B V : Z) (s : S) (log : list Event) :
  snd (snd (Write429Short _ (logged xfer) dev B V (s, log)))
  = log ++ telegram_log dev [B; 0; u8 (Z.shiftr V 8); Z.land V 255].
Proof.
  unfold Write429Short, bind, ret. rewrite ReadWrite429_logged.
  destruct (ReadWrite429 _ xfer _ _ _). reflexivity.
Qed.

End Payloads.

Lemma byte_fields (V : Z) :
  u8 (Z.shiftr V 16) = (V / 65536) mod 256 /\ u8 (Z.shiftr V 8) = (V / 256) mod 256
  /\ Z.land V 255 = V mod 256.
Proof.
  unfold u8. rewrite !Z.shiftr_div_pow2 by lia.
  change 255 with (Z.ones 8). rewrite Z.land_ones by lia. split; [|split]; reflexivity.
Qed.

(** X2: round trip: when a register answers a read with the three payload
    bytes that [Write429Int] sent it, [Read429Int24] gives back every value
    in [-2^23, 2^23). *)
Theorem Write429Int_Read429Int24_roundtrip (S : Type) (xfer : Z -> Z -> bool -> S -> Z * S)
  (dev READ U1 U2 U3 A B V : Z) (s0 s : S) (st : Z) (s' : S) :
  -8388608 <= V < 8388608 ->
  ReadWrite429 _ xfer dev [u8 (Z.lor A READ); U1; U2; U3] s
    = (st :: skipn 1 (sent_bytes (snd (snd (Write429Int _ (logged xfer) dev B V (s0, []))))),
       s') ->
  fst (Read429Int24 _ xfer dev READ U1 U2 U3 A s) = V.
Proof.
  intros HV E. rewrite Write429Int_log in E.
  unfold sent_bytes, telegram_log in E. cbn [app map nth skipn] in E.
  destruct (byte_fields V) as (F1 & F2 & F3). rewrite F1, F2, F3 in E.
  destruct (bytes24 V) as (q & Hq & B1 & B2 & B3).
  rewrite (Read429Int24_response S xfer dev READ U1 U2 U3 A s st _ _ _ s' E B1 B2 B3).
  destruct (Z.ltb_spec ((V / 65536) mod 256 * 65536 + (V / 256) mod 256 * 256 + V mod 256)
              8388608); lia.
Qed.

(** X3: round trip: when a register answers a read with the payload bytes
    that [Write429Short] sent it, [Read429Int12] gives back every value in
    [-2048, 2048). *)
Theorem Write429Short_Read429Int12_roundtrip (S : Type) (xfer : Z -> Z -> bool -> S -> Z * S)
  (dev READ U1 U2 U3 A B V : Z) (s0 s : S) (st : Z) (s' : S) :
  -2048 <= V < 2048 ->
  ReadWrite429 _ xfer dev [u8 (Z.lor A READ); U1; U2; U3] s
    = (st :: skipn 1 (sent_bytes (snd (snd (Write429Short _ (logged xfer) dev B V (s0, []))))),
       s') ->
  fst (Read429Int12 _ xfer dev READ U1 U2 U3 A s) = V.
Proof.
  intros HV E. rewrite Write429Short_log in E.
  unfold sent_bytes, telegram_log in E. cbn [app map nth skipn] in E.
  destruct (byte_fields V) as (_ & F2 & F3). rewrite F2, F3 in E.
  destruct (bytes24 V) as (q & Hq & B1 & B2 & B3).
  rewrite (Read429Int12_response S xfer dev READ U1 U2 U3 A s st _ _ _ s' E).
  assert (Hc : Read429Int12_on 0 ((V / 256) mod 256) (V mod 256)
               = int12_decoded ((V / 256) mod 256) (V mod 256)).
  { pose proof int12_table as T.
    rewrite forallb_forall in T.
    specialize (T ((V / 256) mod 256) (In_Zrange 0 256 ((V / 256) mod 256) ltac:(simpl; lia))).
    rewrite forallb_forall in T.
    specialize (T (V mod 256) (In_Zrange 0 256 (V mod 256) ltac:(simpl; lia))).
    apply Z.eqb_eq in T. exact T. }
  rewrite Hc. unfold int12_decoded.
  set (r := (V / 256) mod 256 * 256 + V mod 256).
  assert (Hr : r = V mod 65536).
  { unfold r. pose proof (Z.div_mod V 256 ltac:(lia)) as E0.
    pose proof (Z.div_mod (V / 256) 256 ltac:(lia)) as E1.
    rewrite Z.div_div in E1 by lia.
    pose proof (Z.mod_pos_bound V 256 ltac:(lia)).
    pose proof (Z.mod_pos_bound (V / 256) 256 ltac:(lia)).
    change (256 * 256) with 65536 in E1.
    apply Z.mod_unique with (V / 65536); lia. }
  rewrite Hr. destruct (Z.leb_spec 0 V).
  - rewrite Z.mod_small by lia. rewrite Z.mod_small by lia.
    destruct (Z.ltb_spec V 2048); lia.
  - replace (V mod 65536) with (V + 65536) by (apply Z.mod_unique with (-1); lia).
    replace ((V + 65536) mod 4096) with (V + 4096)
      by (apply Z.mod_unique with 15; lia).
    destruct (Z.ltb_spec (V + 4096) 2048); lia.
Qed.

Section Log_local.

Variable S : Type.
Variable xfer : Z -> Z -> bool -> S -> Z * S.
Variable dev : Z.

Lemma log_local_ret {A : Type} (a : A) : log_local (ret (S * list Event) a).
Proof. intros s log. unfold ret. rewrite app_nil_r. reflexivity. Qed.

Lemma log_local_bind {A B : Type} (c : M (S * list Event) A)
  (k : A -> M (S * list Event) B) :
  log_local c -> (forall a, log_local (k a)) -> log_local (bind (S * list Event) c k).
Proof.
  intros Hc Hk s log. unfold bind. rewrite Hc.
  destruct (c (s, [])) as [a [s1 l1]].
  rewrite (Hk a s1 (log ++ l1)), (Hk a s1 l1).
  destruct (k a (s1, [])) as [b [s2 l2]]. rewrite app_assoc. reflexivity.
Qed.

Lemma log_local_ReadWrite429 (Wr : list Z) :
  log_local (ReadWrite429 _ (logged xfer) dev Wr).
Proof.
  intros s log. rewrite !(ReadWrite429_logged S xfer dev).
  destruct (ReadWrite429 _ xfer dev Wr s). reflexivity.
Qed.

Lemma log_local_for_each (l : list Z) (body : Z -> M (S * list Event) unit) :
  (forall x, log_local (body x)) -> log_local (for_each _ l body).
Proof.
  intros Hb. induction l as [| x l IH]; simpl.
  - apply log_local_ret.
  - apply log_local_bind; auto.
Qed.

(** The log of [c] then [k], each run from an empty log. *)
Lemma log_bind {A B : Type} (c : M (S * list Event) A)
  (k : A -> M (S * list Event) B) (s : S) :
  (forall a, log_local (k a)) ->
  snd (snd (bind (S * list Event) c k (s, [])))
  = snd (snd (c (s, [])))
    ++ snd (snd (k (fst (c (s, []))) (fst (snd (c (s, []))), []))).
Proof.
  intros Hk. unfold bind. destruct (c (s, [])) as [a [s1 l1]]. cbn [fst snd].
  rewrite (Hk a s1 l1). destruct (k a (s1, [])) as [b [s2 l2]]. reflexivity.
Qed.

(** A loop whose body sends the same telegrams from every state. *)
Lemma for_each_log (l : list Z) (body : Z -> M (S * list Event) unit)
  (f : Z -> list Event) (s : S) :
  (forall x, log_local (body x)) ->
  (forall x s', snd (snd (body x (s', []))) = f x) ->
  snd (snd (for_each _ l body (s, []))) = flat_map f l.
Proof.
  intros Hl Hf. revert s. induction l as [| x l IH]; intros s; [reflexivity |].
  simpl for_each. rewrite log_bind by (intros; apply log_local_for_each; auto).
  rewrite Hf, IH. reflexivity.
Qed.

End Log_local.

(** Proves [log_local] of a driver function built from telegrams. *)
Ltac solve_log_local :=
  repeat (intros; cbv beta zeta; first
    [ apply log_local_ReadWrite429
    | apply log_local_ret
    | apply log_local_for_each
    | apply log_local_bind
    | match goal with |- log_local (match ?X with (_, _) => _ end) => destruct X end ]).

Section Write_logs.

Variable S : Type.
Variable xfer : Z -> Z -> bool -> S -> Z * S.
Variable dev : Z.

Lemma Write429Zero_log (A : Z) (s : S) :
  snd (snd (Write429Zero _ (logged xfer) dev A (s, []))) = telegram_log dev [A; 0; 0; 0].
Proof.
  unfold Write429Zero, bind, ret. rewrite ReadWrite429_logged.
  destruct (ReadWrite429 _ xfer _ _ _). reflexivity.
Qed.

Lemma Write429Datagram_log (A h m l : Z) (s : S) :
  snd (snd (Write429Datagram _ (logged xfer) dev A h m l (s, [])))
  = telegram_log dev [A; h; m; l].
Proof.
  unfold Write429Datagram, bind, ret. rewrite ReadWrite429_logged.
  destruct (ReadWrite429 _ xfer _ _ _). reflexivity.
Qed.

Lemma Write429U16_log (A V : Z) (s : S) :
  snd (snd (Write429U16 _ (logged xfer) dev A V (s, [])))
  = telegram_log dev [A; 0; u8 (Z.shiftr V 8); Z.land V 255].
Proof.
  unfold Write429U16, bind, ret. rewrite ReadWrite429_logged.
  destruct (ReadWrite429 _ xfer _ _ _). reflexivity.
Qed.

Lemma Write429U24_log (A V : Z) (s : S) :
  snd (snd (Write429U24 _ (logged xfer) dev A V (s, [])))
  = telegram_log dev [A; u8 (Z.shiftr V 16); u8 (Z.shiftr V 8); Z.land V 255].
Proof.
  unfold Write429U24, bind, ret. rewrite ReadWrite429_logged.
  destruct (ReadWrite429 _ xfer _ _ _). reflexivity.
Qed.

End Write_logs.

(** The pair left by the loop of [SetAMax]: the sentinel, or a [pm] in
    128..255 with a [pdiv] in 0..13. *)
Lemma amax_search_cases (pr : spec_float) :
  amax_search pr = (-1, -1)
  \/ (128 <= fst (amax_search pr) <= 255 /\ 0 <= snd (amax_search pr) <= 13).
Proof.
  unfold amax_search.
  rewrite (amax_fold_largest pr pdiv_range (-1, -1) pdiv_range_sorted).
  destruct (filter (fun pdiv => pmul_valid (amax_pmul pr pdiv)) pdiv_range)
    as [| pd0 rest] eqn:Hf; [left; reflexivity | right].
  assert (Hin : In (fold_left Z.max rest pd0)
                  (filter (fun pdiv => pmul_valid (amax_pmul pr pdiv)) pdiv_range))
    by (rewrite Hf; apply In_max_list).
  apply filter_In in Hin as [Hin Hv]. apply pdiv_range_bounds in Hin.
  unfold pmul_valid in Hv. apply andb_prop in Hv as [H1 H2].
  apply Z.leb_le in H1, H2. cbn [fst snd]. lia.
Qed.

Lemma amax_search_bytes (pr : spec_float) :
  let '(pm, pd) := amax_search pr in
  (u8 pm = 255 /\ u8 pd = 255)
  \/ (128 <= u8 pm <= 255 /\ 0 <= u8 pd <= 13 /\ u8 pm = pm /\ u8 pd = pd).
Proof.
  destruct (amax_search_cases pr) as [H | H]; destruct (amax_search pr) as [pm pd].
  - injection H as -> ->. left. split; reflexivity.
  - right. cbn [fst snd] in H. unfold u8. rewrite !Z.mod_small by lia. lia.
Qed.

Section SetAMax_logs.

Variable S : Type.
Variable xfer : Z -> Z -> bool -> S -> Z * S.
Variables dev READ U1 U2 U3 : Z.
Variables IDX_PULSEDIV_RAMPDIV IDX_PMUL_PDIV IDX_AMAX : Z -> Z.

(** [SetAMax] from any state: the divider byte [d] is whatever the device
    answers. *)
Lemma SetAMax_log (Motor AMax : Z) (s : S) :
  exists d,
    let A := Z.land AMax 2047 in
    let '(pm, pd) := amax_search (amax_p_reduced A (Z.shiftr d 4) (Z.land d 15)) in
    snd (snd (SetAMax _ (logged xfer) dev READ IDX_PULSEDIV_RAMPDIV IDX_PMUL_PDIV
                IDX_AMAX U1 U2 U3 Motor AMax (s, [])))
    = telegram_log dev [u8 (Z.lor (u8 (IDX_PULSEDIV_RAMPDIV Motor)) READ); U1; U2; U3]
      ++ telegram_log dev [u8 (IDX_PMUL_PDIV Motor); 0; u8 pm; u8 pd]
      ++ telegram_log dev [u8 (IDX_AMAX Motor); 0; u8 (Z.shiftr A 8); Z.land A 255].
Proof.
  destruct (ReadWrite429_shape S xfer dev
              [u8 (Z.lor (u8 (IDX_PULSEDIV_RAMPDIV Motor)) READ); U1; U2; U3] s)
    as (st & h & d & l & s1 & E).
  exists d.
  pose proof (SetAMax_run S xfer dev READ U1 U2 U3 IDX_PULSEDIV_RAMPDIV IDX_PMUL_PDIV
                IDX_AMAX Motor AMax s st h d l s1 E) as Hr.
  cbv zeta in Hr |- *.
  destruct (amax_search _) as [pm pd]. exact (proj2 Hr).
Qed.

(** X4: from any state of any transport, [SetAMax] reads a divider byte
    [d] from the device, and its PMUL/PDIV telegram carries the [uint8_t]
    stores of the pair [(pm, pd)] that the loop keeps on [d]: either the
    sentinel [(-1, -1)], stored as [0xFF, 0xFF], or a found pair with [pm]
    in 128..255 and [pd] in 0..13, stored unchanged; the stored bytes are
    [0xFF, 0xFF] exactly when the loop kept the sentinel, so a found pair is
    never confused with it. *)
Theorem SetAMax_pmul_pdiv_bytes (Motor AMax : Z) (s : S) :
  exists st h d l s1,
    ReadWrite429 _ xfer dev [u8 (Z.lor (u8 (IDX_PULSEDIV_RAMPDIV Motor)) READ); U1; U2; U3] s
      = ([st; h; d; l], s1)
    /\ let '(pm, pd) :=
         amax_search (amax_p_reduced (Z.land AMax 2047) (Z.shiftr d 4) (Z.land d 15)) in
       (((pm, pd) = (-1, -1) /\ (u8 pm, u8 pd) = (255, 255))
        \/ (128 <= pm <= 255 /\ 0 <= pd <= 13 /\ (u8 pm, u8 pd) = (pm, pd)))
       /\ ((u8 pm, u8 pd) = (255, 255) <-> (pm, pd) = (-1, -1))
       /\ snd (snd (SetAMax _ (logged xfer) dev READ IDX_PULSEDIV_RAMPDIV IDX_PMUL_PDIV
                      IDX_AMAX U1 U2 U3 Motor AMax (s, [])))
          = telegram_log dev [u8 (Z.lor (u8 (IDX_PULSEDIV_RAMPDIV Motor)) READ); U1; U2; U3]
            ++ telegram_log dev [u8 (IDX_PMUL_PDIV Motor); 0; u8 pm; u8 pd]
            ++ telegram_log dev [u8 (IDX_AMAX Motor); 0; u8 (Z.shiftr (Z.land AMax 2047) 8);
                                 Z.land (Z.land AMax 2047) 255].
Proof.
  destruct (ReadWrite429_shape S xfer dev
              [u8 (Z.lor (u8 (IDX_PULSEDIV_RAMPDIV Motor)) READ); U1; U2; U3] s)
    as (st & h & d & l & s1 & E).
  exists st, h, d, l, s1. split; [exact E |].
  pose proof (SetAMax_run S xfer dev READ U1 U2 U3 IDX_PULSEDIV_RAMPDIV IDX_PMUL_PDIV
                IDX_AMAX Motor AMax s st h d l s1 E) as Hr.
  pose proof (amax_search_cases
                (amax_p_reduced (Z.land AMax 2047) (Z.shiftr d 4) (Z.land d 15))) as Hc.
  cbv zeta in Hr |- *.
  destruct (amax_search _) as [pm pd].
  split; [| split; [| exact (proj2 Hr)]].
  - destruct Hc as [H | H].
    + left. injection H as -> ->. split; reflexivity.
    + right. cbn [fst snd] in H. unfold u8. rewrite !Z.mod_small by lia.
      split; [lia | split; [lia | reflexivity]].
  - destruct Hc as [H | H].
    + injection H as -> ->. split; intros _; reflexivity.
    + cbn [fst snd] in H. unfold u8. rewrite !Z.mod_small by lia.
      split; intros Heq; injection Heq; lia.
Qed.

End SetAMax_logs.

Lemma flat_map_map {A B C : Type} (f : B -> list C) (g : A -> B) (l : list A) :
  flat_map f (map g l) = flat_map (fun x => f (g x)) l.
Proof. induction l as [| x l IH]; simpl; [reflexivity | rewrite IH; reflexivity]. Qed.

Lemma flat_map_flat_map {A B C : Type} (f : B -> list C) (g : A -> list B) (l : list A) :
  flat_map f (flat_map g l) = flat_map (fun x => flat_map f (g x)) l.
Proof.
  induction l as [| x l IH]; simpl; [reflexivity |].
  rewrite flat_map_app, IH. reflexivity.
Qed.

Section Loop_logs.

Variable S : Type.

(** A loop over distinct values whose body sends telegrams that depend on
    its state only through some value [p] with property [P]. *)
Lemma for_each_log_exists (P : Z * Z -> Prop) (g : Z -> Z * Z -> list Event)
  (l : list Z) (body : Z -> M (S * list Event) unit) (s : S) :
  NoDup l ->
  (forall x, log_local (body x)) ->
  (forall x s', exists p, P p /\ snd (snd (body x (s', []))) = g x p) ->
  exists ps : Z -> Z * Z,
    (forall x, In x l -> P (ps x))
    /\ snd (snd (for_each _ l body (s, []))) = flat_map (fun x => g x (ps x)) l.
Proof.
  intros Hnd Hl Hb. revert s. induction l as [| x l IH]; intros s.
  - exists (fun _ => (0, 0)). split; [intros y [] | reflexivity].
  - inversion Hnd as [| ? ? Hx Hnd']; subst.
    simpl for_each. rewrite log_bind by (intros; apply log_local_for_each; auto).
    destruct (Hb x s) as (p & Hp & E1).
    destruct (IH Hnd' (fst (snd (body x (s, []))))) as (ps & Hps & E2).
    exists (fun y => if y =? x then p else ps y). split.
    + intros y [<- | Hy].
      * rewrite Z.eqb_refl. exact Hp.
      * destruct (Z.eqb_spec y x) as [-> | _]; [contradiction | auto].
    + rewrite E1, E2. simpl flat_map. rewrite Z.eqb_refl. f_equal.
      rewrite !flat_map_concat_map. f_equal. apply map_ext_in.
      intros y Hy. destruct (Z.eqb_spec y x) as [-> | _]; [contradiction | reflexivity].
Qed.

End Loop_logs.

Section Init429_log.

Variable S : Type.
Variable xfer : Z -> Z -> bool -> S -> Z * S.
Variables dev READ : Z.
Variables IDX_REFCONF_RM IDX_PULSEDIV_RAMPDIV IDX_PMUL_PDIV IDX_AMAX : Z -> Z.
Variables U1 U2 U3 IDX_XLATCHED : Z.
Variable MOTOR : Z -> Z.
Variables IDX_IF_CONFIG_429 IDX_SMGP EN_SD EN_REFR SDO_INT NO_REF : Z.
Variables IDX_VMIN IDX_VMAX : Z -> Z.

(** X8: with any transport, from any state, [Init429] exchanges exactly the
    telegrams of [Init429_telegrams]: the zeroing of registers
    [0..TMC429_IDX_XLATCHED] of the three motors, the interface
    configuration and SMGP writes, then per motor the divider, reference,
    VMIN, VMAX writes and the three telegrams of [SetAMax], whose
    PMUL/PDIV payload bytes are the sentinel or a pair with [pm] in
    128..255 and [pd] in 0..13.  [Write429U16] and [Write429U24] are the
    accessors modelled from the spec. *)
Theorem Init429_log (s : S) :
  exists pmul_pdiv : Z -> Z * Z,
    (forall motor, 0 <= motor <= 2 ->
       (fst (pmul_pdiv motor) = 255 /\ snd (pmul_pdiv motor) = 255)
       \/ (128 <= fst (pmul_pdiv motor) <= 255 /\ 0 <= snd (pmul_pdiv motor) <= 13))
    /\ snd (snd (Init429 _ (logged xfer) dev READ IDX_REFCONF_RM IDX_PULSEDIV_RAMPDIV
                   IDX_PMUL_PDIV IDX_AMAX U1 U2 U3 IDX_XLATCHED MOTOR IDX_IF_CONFIG_429
                   IDX_SMGP EN_SD EN_REFR SDO_INT NO_REF IDX_VMIN IDX_VMAX (s, [])))
       = flat_map (telegram_log dev)
           (Init429_telegrams READ IDX_REFCONF_RM IDX_PULSEDIV_RAMPDIV IDX_PMUL_PDIV
              IDX_AMAX U1 U2 U3 IDX_XLATCHED MOTOR IDX_IF_CONFIG_429 IDX_SMGP EN_SD
              EN_REFR SDO_INT NO_REF IDX_VMIN IDX_VMAX pmul_pdiv).
Proof.
  unfold Init429.
  rewrite log_bind by solve_log_local.
  rewrite (for_each_log S _ _
             (fun motor => flat_map (fun addr => telegram_log dev
                                        [u8 (Z.lor addr (MOTOR motor)); 0; 0; 0])
                                    (counter (IDX_XLATCHED + 1))))
    by (solve_log_local || (intros; apply for_each_log; [solve_log_local |
                                                          intros; apply Write429Zero_log])).
  rewrite log_bind by solve_log_local. rewrite Write429U24_log.
  rewrite log_bind by solve_log_local. rewrite Write429Datagram_log.
  match goal with
  | |- context [snd (snd (for_each _ (counter 3) ?body (?s', [])))] =>
      destruct (for_each_log_exists S
                  (fun p => (fst p = 255 /\ snd p = 255)
                            \/ (128 <= fst p <= 255 /\ 0 <= snd p <= 13))
                  (fun motor p => flat_map (telegram_log dev)
                     (Init429_motor_telegrams READ IDX_REFCONF_RM IDX_PULSEDIV_RAMPDIV
                        IDX_PMUL_PDIV IDX_AMAX U1 U2 U3 NO_REF IDX_VMIN IDX_VMAX motor p))
                  (counter 3) body s')
        as (ps & Hps & E3)
  end.
  - change (counter 3) with [0; 1; 2]. repeat constructor; simpl; intuition lia.
  - solve_log_local.
  - intros motor s'. cbv beta.
    rewrite log_bind by solve_log_local. rewrite Write429Datagram_log.
    rewrite log_bind by solve_log_local. rewrite Write429Datagram_log.
    rewrite log_bind by solve_log_local. rewrite Write429U16_log.
    rewrite log_bind by solve_log_local. rewrite Write429U24_log.
    rewrite log_bind by solve_log_local.
    match goal with
    | |- context [snd (snd (SetAMax _ _ _ _ _ _ _ _ _ _ motor 1000 (?st, [])))] =>
        destruct (SetAMax_log S xfer dev READ U1 U2 U3 IDX_PULSEDIV_RAMPDIV IDX_PMUL_PDIV
                    IDX_AMAX motor 1000 st) as [d Hd]
    end.
    cbv zeta in Hd.
    pose proof (amax_search_bytes
                  (amax_p_reduced (Z.land 1000 2047) (Z.shiftr d 4) (Z.land d 15))) as Hb.
    destruct (amax_search _) as [pm pd]. rewrite Hd.
    exists (u8 pm, u8 pd). split; [cbn [fst snd]; destruct Hb; [left | right]; lia |].
    unfold ret. cbn [snd]. rewrite app_nil_r.
    unfold Init429_motor_telegrams. cbn [flat_map fst snd]. rewrite app_nil_r.
    reflexivity.
  - exists ps. split.
    + intros motor Hm. apply Hps.
      change (counter 3) with [0; 1; 2]. simpl. lia.
    + rewrite E3. unfold Init429_telegrams. cbv zeta.
      rewrite !flat_map_app, flat_map_flat_map.
      rewrite (flat_map_flat_map (telegram_log dev)
                 (fun motor => Init429_motor_telegrams READ IDX_REFCONF_RM
                                 IDX_PULSEDIV_RAMPDIV IDX_PMUL_PDIV IDX_AMAX U1 U2 U3
                                 NO_REF IDX_VMIN IDX_VMAX motor (ps motor))).
      f_equal. apply flat_map_ext. intros motor. rewrite flat_map_map. reflexivity.
Qed.
End Init429_log.

(** X7: [HardStop] reads the REFCONF_RM register of motor [Motor & 0xFF],
    writes it back with its two upper payload bytes kept and the ramp mode
    byte set to velocity mode, then zeroes V_TARGET and V_ACTUAL, addressed
    with the full [Motor] (their indexes are computed before the [uint8_t]
    conversion): four telegrams, in this order. *)
Theorem HardStop_log (S : Type) (xfer : Z -> Z -> bool -> S -> Z * S)
  (dev READ : Z) (IDX_REFCONF_RM : Z -> Z) (U1 U2 U3 RM_VELOCITY : Z)
  (IDX_VTARGET IDX_VACTUAL : Z -> Z) (Motor : Z) (s : S) (st h m old : Z) (s1 : S) :
  ReadWrite429 _ xfer dev [u8 (Z.lor (IDX_REFCONF_RM (u8 Motor)) READ); U1; U2; U3] s
    = ([st; h; m; old], s1) ->
  snd (snd (HardStop _ (logged xfer) dev READ IDX_REFCONF_RM U1 U2 U3 RM_VELOCITY
              IDX_VTARGET IDX_VACTUAL Motor (s, [])))
  = telegram_log dev [u8 (Z.lor (IDX_REFCONF_RM (u8 Motor)) READ); U1; U2; U3]
    ++ telegram_log dev [u8 (IDX_REFCONF_RM (u8 Motor)); h; m; u8 RM_VELOCITY]
    ++ telegram_log dev [u8 (IDX_VTARGET Motor); 0; 0; 0]
    ++ telegram_log dev [u8 (IDX_VACTUAL Motor); 0; 0; 0].
Proof.
  intros E. unfold HardStop.
  rewrite log_bind by solve_log_local.
  rewrite log_bind by solve_log_local.
  rewrite !Write429Zero_log.
  unfold Set429RampMode, bind, ret at 1.
  rewrite ReadWrite429_logged, E. cbv beta iota. cbn [nth].
  rewrite (ReadWrite429_logged S xfer dev).
  destruct (ReadWrite429 S xfer dev _ s1) as [R w].
  cbn [snd fst]. rewrite <- !app_assoc. reflexivity.
Qed.

(** [m * 2^(x+j)], truncated, is at least [2^j] times [m * 2^x], truncated. *)
Lemma shiftl_shiftr_cancel (m x j : Z) :
  0 <= j -> Z.shiftl m (x + j) / 2 ^ j = Z.shiftl m x.
Proof.
  intros Hj. rewrite <- Z.shiftr_div_pow2 by lia.
  apply Z.bits_inj'. intros i Hi.
  rewrite Z.shiftr_spec, !Z.shiftl_spec by lia. f_equal. lia.
Qed.

Lemma shiftl_scale (m x j : Z) :
  0 <= j -> 2 ^ j * Z.shiftl m x <= Z.shiftl m (x + j).
Proof.
  intros Hj. rewrite <- (shiftl_shiftr_cancel m x j Hj).
  apply Z.mul_div_le. apply Z.pow_pos_nonneg; lia.
Qed.

(** X5: on every input of [SetAMax] (any [AMax], any divider byte), at
    most one [pdiv] in 0..13 gives a [pmul] in 0..127: the pair kept by the
    loop is the only valid one, not just the last. *)
Theorem amax_valid_pdiv_unique (AMax b k k' : Z) :
  0 <= b < 256 -> 0 <= k <= 13 -> 0 <= k' <= 13 ->
  let pr := amax_p_reduced (Z.land AMax 2047) (Z.shiftr b 4) (Z.land b 15) in
  pmul_valid (amax_pmul pr k) = true -> pmul_valid (amax_pmul pr k') = true ->
  k = k'.
Proof.
  intros Hb Hk Hk' pr.
  assert (Hn : nonneg_binary32 pr = true).
  { pose proof (land2047_bounds AMax). pose proof (divider_bounds b Hb).
    apply p_reduced_nonneg; lia. }
  unfold pmul_valid. intros Hv Hv'.
  apply andb_prop in Hv as [Hv1 Hv2], Hv' as [Hv1' Hv2'].
  apply Z.leb_le in Hv1, Hv2, Hv1', Hv2'.
  destruct pr as [[|] | [|] | | [|] m e]; try discriminate.
  - rewrite amax_pmul_zero in Hv1 by lia. lia.
  - unfold nonneg_binary32 in Hn.
    apply andb_prop in Hn as [Hn He2]. apply andb_prop in Hn as [Hd He1].
    apply Z.leb_le in Hd, He1, He2.
    rewrite amax_pmul_exact in Hv1, Hv2, Hv1', Hv2' by lia.
    assert (Hscale : forall i j, 0 <= i <= 13 -> 0 <= j <= 13 -> i < j ->
              128 <= Z.shiftl (Zpos m) (e + 3 + i) ->
              Z.shiftl (Zpos m) (e + 3 + j) <= 255 -> False).
    { intros i j Hi Hj Hij Hlo Hhi.
      pose proof (shiftl_scale (Zpos m) (e + 3 + i) (j - i) ltac:(lia)) as Hs.
      replace (e + 3 + i + (j - i)) with (e + 3 + j) in Hs by lia.
      assert (H2 : 2 <= 2 ^ (j - i)).
      { change 2 with (2 ^ 1) at 1. apply Z.pow_le_mono_r; lia. }
      nia. }
    destruct (Z.lt_trichotomy k k') as [Hlt | [Heq | Hgt]]; [| exact Heq |].
    + exfalso. apply (Hscale k k'); lia.
    + exfalso. apply (Hscale k' k); lia.
Qed.

(** [AMax = 0] gives [p_reduced = +0] for every pair of divider
    exponents. *)
Lemma p_reduced_zero_table :
  forallb (fun pd => forallb (fun rd =>
    match amax_p_reduced 0 pd rd with S754_zero false => true | _ => false end)
    (Zrange 0 16)) (Zrange 0 16) = true.
Proof. vm_compute. reflexivity. Qed.

Section SetAMax_zero.

Variable S : Type.
Variable xfer : Z -> Z -> bool -> S -> Z * S.
Variables dev READ U1 U2 U3 : Z.
Variables IDX_PULSEDIV_RAMPDIV IDX_PMUL_PDIV IDX_AMAX : Z -> Z.

(** X6: when [AMax] is a multiple of 2048 ([AMax & 0x7FF = 0]),
    [SetAMax] writes the sentinel PMUL/PDIV payload [0, 0xFF, 0xFF] and the
    AMAX payload [0, 0, 0], whatever divider byte the device returns. *)
Theorem SetAMax_zero_AMax (Motor AMax : Z) (s : S) (st h d l : Z) (s1 : S) :
  AMax mod 2048 = 0 -> 0 <= d < 256 ->
  ReadWrite429 _ xfer dev [u8 (Z.lor (u8 (IDX_PULSEDIV_RAMPDIV Motor)) READ); U1; U2; U3] s
    = ([st; h; d; l], s1) ->
  snd (snd (SetAMax _ (logged xfer) dev READ IDX_PULSEDIV_RAMPDIV IDX_PMUL_PDIV
              IDX_AMAX U1 U2 U3 Motor AMax (s, [])))
  = telegram_log dev [u8 (Z.lor (u8 (IDX_PULSEDIV_RAMPDIV Motor)) READ); U1; U2; U3]
    ++ telegram_log dev [u8 (IDX_PMUL_PDIV Motor); 0; 255; 255]
    ++ telegram_log dev [u8 (IDX_AMAX Motor); 0; 0; 0].
Proof.
  intros HA Hd E.
  pose proof (SetAMax_run S xfer dev READ U1 U2 U3 IDX_PULSEDIV_RAMPDIV IDX_PMUL_PDIV
                IDX_AMAX Motor AMax s st h d l s1 E) as Hr.
  assert (Hm : Z.land AMax 2047 = 0)
    by (change 2047 with (Z.ones 11); rewrite Z.land_ones by lia; exact HA).
  cbv zeta in Hr. rewrite Hm in Hr.
  assert (Hz : amax_p_reduced 0 (Z.shiftr d 4) (Z.land d 15) = S754_zero false).
  { destruct (divider_bounds d Hd) as [H1 H2].
    pose proof p_reduced_zero_table as T.
    rewrite forallb_forall in T.
    specialize (T (Z.shiftr d 4) (In_Zrange 0 16 (Z.shiftr d 4) ltac:(simpl; lia))).
    rewrite forallb_forall in T.
    specialize (T (Z.land d 15) (In_Zrange 0 16 (Z.land d 15) ltac:(simpl; lia))).
    destruct (amax_p_reduced 0 (Z.shiftr d 4) (Z.land d 15)) as [[|] | | | ]; 
      try discriminate; reflexivity. }
  rewrite Hz in Hr.
  replace (amax_search (S754_zero false)) with (-1, -1) in Hr by (vm_compute; reflexivity).
  exact (proj2 Hr).
Qed.

End SetAMax_zero.

(** Between an exponent where [m * 2^x] (truncated) is at most 255 and one
    [n] steps higher where it is at least 128, some exponent puts it in
    128..255. *)
Lemma shiftl_window (m x : Z) (n : nat) :
  Z.shiftl m x <= 255 -> 128 <= Z.shiftl m (x + Z.of_nat n) ->
  exists k, 0 <= k <= Z.of_nat n /\ 128 <= Z.shiftl m (x + k) <= 255.
Proof.
  revert x. induction n as [| n IH]; intros x Hlo Hhi.
  - exists 0. rewrite Z.add_0_r in *. simpl in Hhi. lia.
  - destruct (Z.le_gt_cases (Z.shiftl m (x + 1)) 255) as [H1 | H1].
    + destruct (IH (x + 1) H1) as (k & Hk & Hv).
      { replace (x + 1 + Z.of_nat n) with (x + Z.of_nat (S n)) by lia. exact Hhi. }
      exists (k + 1). split; [lia |]. replace (x + (k + 1)) with (x + 1 + k) by lia. exact Hv.
    + exists 0. rewrite Z.add_0_r. split; [lia |]. split; [| exact Hlo].
      rewrite <- (shiftl_shiftr_cancel m x 1) by lia. change (2 ^ 1) with 2.
      apply Z.div_le_lower_bound; lia.
Qed.

Lemma amax_search_sentinel_filter (pr : spec_float) :
  amax_search pr = (-1, -1)
  <-> filter (fun pdiv => pmul_valid (amax_pmul pr pdiv)) pdiv_range = [].
Proof.
  unfold amax_search.
  rewrite (amax_fold_largest pr pdiv_range (-1, -1) pdiv_range_sorted).
  destruct (filter (fun pdiv => pmul_valid (amax_pmul pr pdiv)) pdiv_range)
    as [| pd0 rest] eqn:Hf; [tauto |].
  split; [| discriminate]. intros H.
  assert (Hin : In (fold_left Z.max rest pd0)
                  (filter (fun pdiv => pmul_valid (amax_pmul pr pdiv)) pdiv_range))
    by (rewrite Hf; apply In_max_list).
  apply filter_In in Hin as [Hin _]. apply pdiv_range_bounds in Hin.
  injection H as _ H. lia.
Qed.

Lemma filter_nil_forall {A : Type} (f : A -> bool) (l : list A) :
  filter f l = [] <-> (forall x, In x l -> f x = false).
Proof.
  induction l as [| y l IH]; simpl; [tauto |].
  destruct (f y) eqn:Hy; split.
  - discriminate.
  - intros H. rewrite (H y (or_introl eq_refl)) in Hy. discriminate.
  - intros H x [<- | Hx]; [exact Hy | apply IH; assumption].
  - intros H. apply IH. intros x Hx. apply H. right. exact Hx.
Qed.

Lemma In_pdiv_range (pdiv : Z) : 0 <= pdiv <= 13 -> In pdiv pdiv_range.
Proof.
  intros H. unfold pdiv_range. apply in_map_iff. exists (Z.to_nat pdiv).
  split; [lia | apply in_seq; lia].
Qed.

Lemma amax_search_sentinel_pmul (AMax b : Z) :
  0 <= b < 256 ->
  let pr := amax_p_reduced (Z.land AMax 2047) (Z.shiftr b 4) (Z.land b 15) in
  amax_search pr = (-1, -1) <-> (127 < amax_pmul pr 0 \/ amax_pmul pr 13 < 0).
Proof.
  intros Hb pr.
  assert (Hn : nonneg_binary32 pr = true).
  { pose proof (land2047_bounds AMax). pose proof (divider_bounds b Hb).
    apply p_reduced_nonneg; lia. }
  rewrite amax_search_sentinel_filter, filter_nil_forall.
  destruct pr as [[|] | [|] | | [|] m e]; try discriminate.
  - rewrite (amax_pmul_zero 13) by lia. split; [lia |]. intros _ x Hx.
    apply pdiv_range_bounds in Hx. rewrite amax_pmul_zero by lia. reflexivity.
  - unfold nonneg_binary32 in Hn.
    apply andb_prop in Hn as [Hn He2]. apply andb_prop in Hn as [Hd He1].
    apply Z.leb_le in Hd, He1, He2.
    rewrite !amax_pmul_exact by lia.
    assert (Hg : forall k, 0 <= Z.shiftl (Zpos m) k)
      by (intros k; apply Z.shiftl_nonneg; lia).
    split.
    + intros Hnone.
      destruct (Z.le_gt_cases (Z.shiftl (Zpos m) (e + 3 + 0)) 255) as [H0 | H0];
        [| left; lia].
      destruct (Z.le_gt_cases 128 (Z.shiftl (Zpos m) (e + 3 + 13))) as [H13 | H13];
        [| right; lia].
      exfalso.
      destruct (shiftl_window (Zpos m) (e + 3) 13) as (k & Hk & Hv).
      { rewrite Z.add_0_r in H0. exact H0. }
      { exact H13. }
      specialize (Hnone k (In_pdiv_range k Hk)).
      rewrite amax_pmul_exact in Hnone by lia.
      unfold pmul_valid in Hnone.
      destruct (Z.leb_spec 0 (Z.shiftl (Zpos m) (e + 3 + k) - 128)); [| lia].
      destruct (Z.leb_spec (Z.shiftl (Zpos m) (e + 3 + k) - 128) 127); [| lia].
      discriminate.
    + intros Hout k Hk. apply pdiv_range_bounds in Hk.
      rewrite amax_pmul_exact by lia. unfold pmul_valid.
      destruct (Z.leb_spec 0 (Z.shiftl (Zpos m) (e + 3 + k) - 128)) as [Hl | Hl];
        [| reflexivity].
      destruct (Z.leb_spec (Z.shiftl (Zpos m) (e + 3 + k) - 128) 127) as [Hh | Hh];
        [| reflexivity].
      exfalso.
      assert (P1 : 1 <= 2 ^ k) by (change 1 with (2 ^ 0); apply Z.pow_le_mono_r; lia).
      assert (P2 : 1 <= 2 ^ (13 - k))
        by (change 1 with (2 ^ 0); apply Z.pow_le_mono_r; lia).
      pose proof (shiftl_scale (Zpos m) (e + 3 + 0) k ltac:(lia)) as S0.
      pose proof (shiftl_scale (Zpos m) (e + 3 + k) (13 - k) ltac:(lia)) as S13.
      replace (e + 3 + 0 + k) with (e + 3 + k) in S0 by lia.
      replace (e + 3 + k + (13 - k)) with (e + 3 + 13) in S13 by lia.
      pose proof (Hg (e + 3 + 0)). pose proof (Hg (e + 3 + k)).
      destruct Hout; nia.
Qed.

Lemma Qfloor_ge (x : Q) (n : Z) : (n <= Qfloor x)%Z <-> (inject_Z n <= x)%Q.
Proof.
  split; intros H.
  - eapply Qle_trans; [| apply Qfloor_le]. rewrite <- Zle_Qle. exact H.
  - rewrite <- (Qfloor_Z n). apply Qfloor_resp_le. exact H.
Qed.

(** X9: on every input of [SetAMax], the loop keeps the sentinel
    [(-1, -1)] exactly when [p_reduced < 1/512] (even [pdiv = 13] gives
    [pmul < 0]) or [p_reduced >= 32] (even [pdiv = 0] gives [pmul > 127]).
    *)
Theorem amax_search_sentinel_iff (AMax b : Z) :
  0 <= b < 256 ->
  let pr := amax_p_reduced (Z.land AMax 2047) (Z.shiftr b 4) (Z.land b 15) in
  amax_search pr = (-1, -1) <-> (Q_of_SF pr < 1 # 512 \/ 32 <= Q_of_SF pr)%Q.
Proof.
  intros Hb pr.
  pose proof (amax_search_sentinel_pmul AMax b Hb) as H. fold pr in H. rewrite H.
  assert (Hn : nonneg_binary32 pr = true).
  { pose proof (land2047_bounds AMax). pose proof (divider_bounds b Hb).
    apply p_reduced_nonneg; lia. }
  rewrite !amax_pmul_spec by (auto; lia). unfold pmul_spec.
  assert (E0 : (127 < Qfloor (Q_of_SF pr * 8 * inject_Z (2 ^ 0)) - 128)%Z
               <-> (inject_Z 256 <= Q_of_SF pr * 8 * inject_Z (2 ^ 0))%Q)
    by (rewrite <- Qfloor_ge; lia).
  assert (E13 : (Qfloor (Q_of_SF pr * 8 * inject_Z (2 ^ 13)) - 128 < 0)%Z
               <-> ~ (inject_Z 128 <= Q_of_SF pr * 8 * inject_Z (2 ^ 13))%Q)
    by (rewrite <- Qfloor_ge; lia).
  rewrite E0, E13. destruct (Q_of_SF pr) as [n d].
  unfold Qle, Qlt. cbn [Qnum Qden Qmult inject_Z Z.pow Z.pow_pos Pos.iter Z.mul].
  rewrite !Pos2Z.inj_mul. lia.
Qed.

(** * Instances *)

(** ** Concrete runs of the theorems with hypotheses *)

Lemma Write429Short_Int_payload_witness :
  sent_bytes (snd (snd (Write429Short _ (logged loopback) 0 5 1000 (tt, []))))
  = [5; 0; 3; 232]
  /\ sent_bytes (snd (snd (Write429Int _ (logged loopback) 0 5 1000000 (tt, []))))
  = [5; 15; 66; 64].
Proof.
  split.
  - apply (proj1 (Write429Short_Int_payload unit loopback 0 5 1000 tt)). lia.
  - apply (proj1 (proj2 (Write429Short_Int_payload unit loopback 0 5 1000000 tt))). lia.
Defined.

Lemma Set429Mode_write_back_witness :
  ReadWrite429 nat (fixed_response [0; 1; 2; 3]) 0 [u8 (Z.lor 20 128); 0; 0; 0] O
    = ([0; 1; 2; 3], O)
  /\ snd (snd (Set429RampMode _ (logged (fixed_response [0; 1; 2; 3])) 0 128
                (fun a => 20 + a) 0 0 0 0 9 (O, [])))
     = telegram_log 0 [u8 (Z.lor 20 128); 0; 0; 0] ++ telegram_log 0 [20; 1; 2; 9]
  /\ snd (snd (Set429SwitchMode _ (logged (fixed_response [0; 1; 2; 3])) 0 128
                (fun a => 20 + a) 0 0 0 0 7 (O, [])))
     = telegram_log 0 [u8 (Z.lor 20 128); 0; 0; 0] ++ telegram_log 0 [20; 1; 7; 3].
Proof.
  assert (E : ReadWrite429 nat (fixed_response [0; 1; 2; 3]) 0
                [u8 (Z.lor 20 128); 0; 0; 0] O = ([0; 1; 2; 3], O)) by reflexivity.
  split; [exact E |].
  exact (Set429Mode_write_back nat (fixed_response [0; 1; 2; 3]) 0 128 0 0 0
           (fun a => 20 + a) 0 9 7 0 1 2 3 O O E).
Defined.

Lemma Read429SingleByte_index_witness :
  fst (Read429SingleByte nat (fixed_response [0; 10; 20; 30]) 0 128 0 0 0 5 1 O) = Some 20
  /\ fst (Read429SingleByte nat (fixed_response [0; 10; 20; 30]) 0 128 0 0 0 5 3 O) = None.
Proof.
  apply (Read429SingleByte_index nat (fixed_response [0; 10; 20; 30]) 0 128 0 0 0 5 1 O).
  lia.
Defined.

Lemma Read429Int12_decode_witness :
  fst (Read429Int12 nat (fixed_response [0; 0; 15; 255]) 0 128 0 0 0 5 O) = -1
  /\ fst (Read429Int12 nat (fixed_response [0; 0; 0; 1]) 0 128 0 0 0 5 O) = 1
  /\ fst (Read429Int12 nat (fixed_response [0; 0; 24; 0]) 0 128 0 0 0 5 O) = sext12 (24 * 256 + 0).
Proof.
  split; [| split].
  - apply (proj1 (proj2 (Read429Int12_decode nat (fixed_response [0; 0; 15; 255]) 0 128 0 0 0 5 O
                           0 0 15 255 O eq_refl ltac:(lia) ltac:(lia)))).
    lia.
  - apply (proj1 (proj2 (Read429Int12_decode nat (fixed_response [0; 0; 0; 1]) 0 128 0 0 0 5 O
                           0 0 0 1 O eq_refl ltac:(lia) ltac:(lia)))).
    lia.
  - apply (proj2 (proj2 (Read429Int12_decode nat (fixed_response [0; 0; 24; 0]) 0 128 0 0 0 5 O
                           0 0 24 0 O eq_refl ltac:(lia) ltac:(lia)))).
    right. vm_compute. discriminate.
Defined.

Lemma SetAMax_search_largest_witness :
  0 <= 118 < 256
  /\ amax_search (amax_p_reduced (Z.land 1000 2047) (Z.shiftr 118 4) (Z.land 118 15))
     = amax_search_spec
         (Q_of_SF (amax_p_reduced (Z.land 1000 2047) (Z.shiftr 118 4) (Z.land 118 15))).
Proof.
  split; [lia |]. apply (SetAMax_search_largest 1000 118). lia.
Defined.


Lemma SetAMax_masks_AMax_witness :
  skipn 8 (snd (snd (SetAMax _ (logged (fixed_response [0; 0; 0; 0])) 0 128
                       (fun m => 32 + m) (fun m => 40 + m) (fun m => 48 + m) 0 0 0 0 2049
                       (O, []))))
  = telegram_log 0 [48; 0; 0; 1].
Proof.
  apply (proj2 (SetAMax_masks_AMax nat (fixed_response [0; 0; 0; 0]) 0 128 0 0 0
                  (fun m => 32 + m) (fun m => 40 + m) (fun m => 48 + m) 0 2049 O
                  0 0 0 0 O eq_refl)).
Defined.

Lemma SetAMax_divider_0x76_witness :
  snd (snd (SetAMax _ (logged (fixed_response [0; 0; 118; 0])) 0 128
              (fun m => 32 + m) (fun m => 40 + m) (fun m => 48 + m) 0 0 0 0 1000 (O, [])))
  = telegram_log 0 [u8 (Z.lor (u8 32) 128); 0; 0; 0]
    ++ telegram_log 0 [40; 0; 247; 1] ++ telegram_log 0 [48; 0; 3; 232].
Proof.
  apply (SetAMax_divider_0x76 nat (fixed_response [0; 0; 118; 0]) 0 128 0 0 0
           (fun m => 32 + m) (fun m => 40 + m) (fun m => 48 + m) 0 O 0 0 0 O eq_refl).
Defined.

Lemma Read429Int24_decode_witness :
  fst (Read429Int24 nat (fixed_response [0; 255; 255; 251]) 0 128 0 0 0 5 O) = -5
  /\ fst (Read429Int24 nat (fixed_response [0; 1; 0; 0]) 0 128 0 0 0 5 O) = 65536.
Proof.
  split.
  - destruct (Read429Int24_decode nat (fixed_response [0; 255; 255; 251]) 0 128 0 0 0 5 O
                0 255 255 251 O eq_refl ltac:(lia) ltac:(lia) ltac:(lia)) as [H _].
    rewrite H. reflexivity.
  - destruct (Read429Int24_decode nat (fixed_response [0; 1; 0; 0]) 0 128 0 0 0 5 O
                0 1 0 0 O eq_refl ltac:(lia) ltac:(lia) ltac:(lia)) as [H _].
    rewrite H. reflexivity.
Defined.

Lemma Write429Int_Read429Int24_roundtrip_witness :
  fst (Read429Int24 nat (fixed_response [0; 255; 255; 251]) 0 128 0 0 0 5 O) = -5.
Proof.
  apply (Write429Int_Read429Int24_roundtrip nat (fixed_response [0; 255; 255; 251])
           0 128 0 0 0 5 9 (-5) O O 0 O).
  - lia.
  - vm_compute. reflexivity.
Defined.

Lemma Write429Short_Read429Int12_roundtrip_witness :
  fst (Read429Int12 nat (fixed_response [0; 0; 255; 251]) 0 128 0 0 0 5 O) = -5.
Proof.
  apply (Write429Short_Read429Int12_roundtrip nat (fixed_response [0; 0; 255; 251])
           0 128 0 0 0 5 9 (-5) O O 0 O).
  - lia.
  - vm_compute. reflexivity.
Defined.

Lemma amax_valid_pdiv_unique_witness :
  pmul_valid (amax_pmul (amax_p_reduced (Z.land 1000 2047) (Z.shiftr 118 4)
                                        (Z.land 118 15)) 1) = true
  /\ (1 : Z) = 1.
Proof.
  split; [vm_compute; reflexivity |].
  apply (amax_valid_pdiv_unique 1000 118 1 1); [lia | lia | lia | |];
    vm_compute; reflexivity.
Defined.

Lemma SetAMax_zero_AMax_witness :
  snd (snd (SetAMax _ (logged (fixed_response [0; 0; 118; 0])) 0 128
              (fun m => 32 + m) (fun m => 40 + m) (fun m => 48 + m) 0 0 0 0 4096 (O, [])))
  = telegram_log 0 [u8 (Z.lor (u8 32) 128); 0; 0; 0]
    ++ telegram_log 0 [40; 0; 255; 255] ++ telegram_log 0 [48; 0; 0; 0].
Proof.
  apply (SetAMax_zero_AMax nat (fixed_response [0; 0; 118; 0]) 0 128 0 0 0
           (fun m => 32 + m) (fun m => 40 + m) (fun m => 48 + m) 0 4096 O 0 0 118 0 O).
  - reflexivity.
  - lia.
  - reflexivity.
Defined.

Lemma HardStop_log_witness :
  snd (snd (HardStop _ (logged (fixed_response [0; 1; 2; 3])) 0 128 (fun a => 20 + a)
              0 0 0 2 (fun m => 30 + m) (fun m => 40 + m) 257 (O, [])))
  = telegram_log 0 [u8 (Z.lor 21 128); 0; 0; 0] ++ telegram_log 0 [21; 1; 2; 2]
    ++ telegram_log 0 [31; 0; 0; 0] ++ telegram_log 0 [41; 0; 0; 0].
Proof.
  apply (HardStop_log nat (fixed_response [0; 1; 2; 3]) 0 128 (fun a => 20 + a) 0 0 0 2
           (fun m => 30 + m) (fun m => 40 + m) 257 O 0 1 2 3 O).
  reflexivity.
Defined.

Lemma amax_search_sentinel_iff_witness :
  0 <= 118 < 256
  /\ (amax_search (amax_p_reduced (Z.land 1000 2047) (Z.shiftr 118 4) (Z.land 118 15))
       = (-1, -1)
     <-> (Q_of_SF (amax_p_reduced (Z.land 1000 2047) (Z.shiftr 118 4) (Z.land 118 15))
          < 1 # 512
          \/ 32 <= Q_of_SF (amax_p_reduced (Z.land 1000 2047) (Z.shiftr 118 4)
                                           (Z.land 118 15)))%Q).
Proof.
  split; [lia |]. apply (amax_search_sentinel_iff 1000 118). lia.
Defined.

(** ** Counterexamples *)

(** C4 as stated: on payload bytes [(0x10, 0x00)] the low 12 bits are 0, so
    their sign extension is 0, but [Read429Int12] returns [0x1000]. *)
Lemma Read429Int12_high_nibble_counterexample :
  fst (Read429Int12 nat (fixed_response [0; 0; 16; 0]) 0 128 0 0 0 5 O) = 4096
  /\ sext12 (16 * 256 + 0) = 0.
Proof. split; vm_compute; reflexivity. Qed.

(** C3 as stated: [AMax = 2048] is not clamped to 2047 but reduced to 0;
    the AMAX telegram carries 0, and the PMUL/PDIV pair of [AMax = 0]. *)
Lemma SetAMax_clamp_counterexample :
  let run A := snd (snd (SetAMax _ (logged (fixed_response [0; 0; 0; 0])) 0 128
                           (fun m => 32 + m) (fun m => 40 + m) (fun m => 48 + m)
                           0 0 0 0 A (O, []))) in
  skipn 4 (run 2048) = telegram_log 0 [40; 0; 255; 255] ++ telegram_log 0 [48; 0; 0; 0]
  /\ skipn 4 (run (Z.min 2048 2047))
     = telegram_log 0 [40; 0; 252; 1] ++ telegram_log 0 [48; 0; 7; 255].
Proof. split; vm_compute; reflexivity. Qed.

(** C8 as stated: the divider byte [0x76] decodes to [pulse_div = 7] and
    [ramp_div = 6]; [SetAMax] with [AMax = 1000] writes [pd = 1], where
    the dividers 6 and 7 of the claim would give [pd = 3]. *)
Lemma SetAMax_0x76_counterexample :
  (Z.shiftr 118 4, Z.land 118 15) = (7, 6)
  /\ firstn 4 (skipn 4 (snd (snd (SetAMax _ (logged (fixed_response [0; 0; 118; 0])) 0 128
                                    (fun m => 32 + m) (fun m => 40 + m) (fun m => 48 + m)
                                    0 0 0 0 1000 (O, [])))))
     = telegram_log 0 [40; 0; 247; 1]
  /\ amax_search (amax_p_reduced 1000 6 7) = (247, 3).
Proof. split; [reflexivity | split; vm_compute; reflexivity]. Qed.
